(** * genertobs writers and the RFT merge: a shallow embedding

    The first part embeds [subscript/genertobs_unstable/_writers.py]: the
    functions that turn observation tables into ERT observation files.
    Pure string formatters are plain functions; code that touches the
    file system, the clock or the logger runs in a small monad [M] over a
    world made of a path-indexed file tree and a clock, with exceptions
    and a write-only list of warnings.

    The second part models the merge of simulated and observed RFT data. *)

From Stdlib Require Import Ascii.
From stdpp Require Import gmap strings list fin_maps pretty.

(** ** Strings *)

(** The line feed, Python's ["\n"]. *)
Definition NL : string := String (Ascii.ascii_of_nat 10) "".

Definition is_space (c : ascii) : bool := bool_decide (c = " "%char).

(** [re.sub(r" +", " ", s)]: every maximal run of spaces becomes one space. *)
Fixpoint re_sub_spaces (s : string) : string :=
  match s with
  | "" => ""
  | String c s' =>
      if is_space c then
        match s' with
        | "" => String c ""
        | String c' _ =>
            if is_space c' then re_sub_spaces s' else String c (re_sub_spaces s')
        end
      else String c (re_sub_spaces s')
  end.

Definition map_chars (f : ascii → ascii) : string → string :=
  fix go s := match s with "" => "" | String c s' => String (f c) (go s') end.

Definition lower_char (c : ascii) : ascii :=
  let n := Ascii.nat_of_ascii c in
  if bool_decide (65 ≤ n ≤ 90) then Ascii.ascii_of_nat (n + 32) else c.

Definition upper_char (c : ascii) : ascii :=
  let n := Ascii.nat_of_ascii c in
  if bool_decide (97 ≤ n ≤ 122) then Ascii.ascii_of_nat (n - 32) else c.

(** [str.lower] and [str.upper] on ASCII text (enum member names, "file",
    "folder"). *)
Definition lower : string → string := map_chars lower_char.
Definition upper : string → string := map_chars upper_char.

(** [sep.join(parts)]. *)
Fixpoint join (sep : string) (parts : list string) : string :=
  match parts with
  | [] => ""
  | [p] => p
  | p :: ps => p +:+ sep +:+ join sep ps
  end.

(** The strings of a list one after the other. *)
Definition concat_strings (parts : list string) : string :=
  foldr String.append "" parts.

(** [s.replace(old, '')]: every non-overlapping occurrence of [old], found
    left to right, is dropped; [skip] counts the characters of a match still
    to be passed over.  With [old] empty nothing is removed. *)
Fixpoint remove_go (old s : string) (skip : nat) : string :=
  match s with
  | "" => ""
  | String c s' =>
      match skip with
      | S k => remove_go old s' k
      | 0 =>
          if String.prefix old s
          then remove_go old s' (String.length old - 1)
          else String c (remove_go old s' 0)
      end
  end.

Definition str_remove (old s : string) : string :=
  match old with "" => s | _ => remove_go old s 0 end.

(** The pieces of [s] between the characters that satisfy [sep]. *)
Fixpoint split_on (sep : ascii → bool) (s : string) : list string :=
  match s with
  | "" => [""]
  | String c s' =>
      if sep c then "" :: split_on sep s'
      else match split_on sep s' with
           | w :: ws => String c w :: ws
           | [] => [String c ""]
           end
  end.

Definition is_blank (c : ascii) : bool :=
  bool_decide (c = " "%char ∨ Ascii.nat_of_ascii c = 9 ∨ Ascii.nat_of_ascii c = 13).

Definition is_newline (c : ascii) : bool := bool_decide (Ascii.nat_of_ascii c = 10).

Definition lines (s : string) : list string := split_on is_newline s.

Definition words (s : string) : list string :=
  filter (λ w, w ≠ "") (split_on is_blank s).

(** No character of [s] satisfies [p]. *)
Fixpoint no_char (p : ascii → bool) (s : string) : bool :=
  match s with
  | "" => true
  | String c s' => negb (p c) && no_char p s'
  end.

(** ** Paths and the file tree *)

(** A [pathlib.Path], absolute and free of symbolic links, as its list of
    components from the root; [resolve] is the identity on such paths. *)
Abbreviation path := (list string).

(** [str(p)]. *)
Definition path_str (p : path) : string := "/" +:+ join "/" p.

Definition resolve (p : path) : path := p.

(** [p.parent]. *)
Definition dirname (p : path) : path := removelast p.

Inductive node :=
  | File (content : string)
  | Dir.

#[global] Instance node_eq_dec : EqDecision node.
Proof. solve_decision. Defined.

Abbreviation FS := (gmap (list string) node).

(** The root is always a directory and is not stored in the map. *)
Definition node_at (t : FS) (p : path) : option node :=
  match p with [] => Some Dir | _ => t !! p end.

(** What [p] and everything below it leave behind when deleted. *)
Definition remove_tree (p : path) (t : FS) : FS :=
  filter (λ kv, ¬ p `prefix_of` kv.1) t.

(** Every stored entry sits in a directory. *)
Definition fs_wf (t : FS) : Prop :=
  map_Forall (λ p _, node_at t (dirname p) = Some Dir) t.

Definition is_file (t : FS) (p : path) : Prop := ∃ content, t !! p = Some (File content).

(** [folder] is a directory that holds no directory. *)
Definition flat_dir (t : FS) (folder : path) : Prop :=
  node_at t folder = Some Dir ∧ ∀ x, t !! (folder ++ [x]) ≠ Some Dir.

(** The file tree without file contents: which paths exist, and as what. *)
Inductive kind := KFile | KDir.

#[global] Instance kind_eq_dec : EqDecision kind.
Proof. solve_decision. Defined.

Definition kind_of (n : node) : kind :=
  match n with File _ => KFile | Dir => KDir end.

Definition shape (t : FS) : gmap (list string) kind := kind_of <$> t.

(** ** The world and the effect monad *)

Record World := { fs : FS; clock : nat }.

Inductive exn :=
  | FileExistsError
  | FileNotFoundError
  | NotADirectoryError
  | IsADirectoryError
  | ValueError
  | KeyError.

(** A computation reads and updates the world, may raise, and emits
    warnings; nothing reads the warnings back. *)
Definition M (A : Type) : Type := World → exn + (A * World * list string).

Definition ret {A} (a : A) : M A := λ w, inr (a, w, []).

Definition bind {A B} (m : M A) (f : A → M B) : M B := λ w,
  match m w with
  | inl e => inl e
  | inr (a, w1, l1) =>
      match f a w1 with
      | inl e => inl e
      | inr (b, w2, l2) => inr (b, w2, l1 ++ l2)
      end
  end.

Notation "'let*' x ':=' m 'in' k" := (bind m (λ x, k))
  (at level 10, x name, m at level 100, k at level 200, only parsing).
Notation "m '>>' k" := (bind m (λ _, k))
  (at level 100, k at level 200, right associativity, only parsing).

(** [for x in xs: acc = body(acc, x)], stopping at the first exception. *)
Fixpoint foldM {A S} (body : S → A → M S) (xs : list A) (acc : S) : M S :=
  match xs with
  | [] => ret acc
  | x :: xs' => let* acc' := body acc x in foldM body xs' acc'
  end.

(** An outcome with the warnings [l0] emitted before it. *)
Definition with_log {A} (l0 : list string) (r : exn + (A * World * list string)) :
    exn + (A * World * list string) :=
  match r with inl e => inl e | inr (a, w, l) => inr (a, w, l0 ++ l) end.

(** [m] changes the file tree only at and below [d], and never removes or
    replaces a directory. *)
Definition tidy {A} (d : path) (m : M A) : Prop :=
  ∀ w a w' l, m w = inr (a, w', l) →
    (∀ q, ¬ d `prefix_of` q → fs w' !! q = fs w !! q) ∧
    (∀ q, fs w !! q = Some Dir → fs w' !! q = Some Dir).

Definition same_shape (w1 w2 : World) : Prop := shape (fs w1) = shape (fs w2).

(** Run in two worlds whose trees have one shape, [m1] and [m2] both raise
    or both return, with results related by [R], in worlds whose trees again
    have one shape. *)
Definition shape_sim {A} (R : A → A → Prop) (m1 m2 : M A) : Prop :=
  ∀ w1 w2, same_shape w1 w2 →
    match m1 w1, m2 w2 with
    | inr (a1, w1', _), inr (a2, w2', _) => R a1 a2 ∧ same_shape w1' w2'
    | inl _, inl _ => True
    | _, _ => False
    end.

Definition anything {A} (_ _ : A) : Prop := True.

Definition lift {A} (r : exn + A) : M A := λ w,
  match r with inl e => inl e | inr a => inr (a, w, []) end.

(** [logger.warning(msg)]; records below warning level are not modelled. *)
Definition warning (msg : string) : M unit := λ w, inr (tt, w, [msg]).

(** [datetime.now()] and [time.sleep(n)]. *)
Definition datetime_now : M nat := λ w, inr (clock w, w, []).

Definition sleep (n : nat) : M unit := λ w,
  inr (tt, {| fs := fs w; clock := clock w + n |}, []).

(** [p.exists()]. *)
Definition path_exists (p : path) : M bool := λ w,
  inr (bool_decide (is_Some (node_at (fs w) p)), w, []).

(** [shutil.rmtree(p)]. *)
Definition rmtree (p : path) : M unit := λ w,
  match node_at (fs w) p with
  | Some Dir => inr (tt, {| fs := remove_tree p (fs w); clock := clock w |}, [])
  | Some (File _) => inl NotADirectoryError
  | None => inl FileNotFoundError
  end.

(** [p.mkdir(exist_ok=...)]: the directory that is to hold [p] must exist. *)
Definition mkdir (p : path) (exist_ok : bool) : M unit := λ w,
  match node_at (fs w) p with
  | Some Dir => if exist_ok then inr (tt, w, []) else inl FileExistsError
  | Some (File _) => inl FileExistsError
  | None =>
      match node_at (fs w) (dirname p) with
      | Some Dir => inr (tt, {| fs := <[p := Dir]> (fs w); clock := clock w |}, [])
      | Some (File _) => inl NotADirectoryError
      | None => inl FileNotFoundError
      end
  end.

(** [p.write_text(s)], and [open(p, "w")] followed by one write of [s]:
    the file is created or truncated. *)
Definition write_text (p : path) (s : string) : M unit := λ w,
  match node_at (fs w) (dirname p) with
  | Some Dir =>
      match node_at (fs w) p with
      | Some Dir => inl IsADirectoryError
      | _ => inr (tt, {| fs := <[p := File s]> (fs w); clock := clock w |}, [])
      end
  | Some (File _) => inl NotADirectoryError
  | None => inl FileNotFoundError
  end.

(** [p.chmod(mode)]; permission bits are not part of the file tree. *)
Definition chmod (p : path) (mode : nat) : M unit := λ w,
  match node_at (fs w) p with
  | Some _ => inr (tt, w, [])
  | None => inl FileNotFoundError
  end.

(** ** Tables *)

(** A table cell: text, or a number or timestamp of the carrier [num]. *)
Inductive cell (num : Type) :=
  | CStr (s : string)
  | CNum (x : num).
Arguments CStr {num} s.
Arguments CNum {num} x.

#[global] Instance cell_eq_dec {num} `{EqDecision num} : EqDecision (cell num).
Proof. solve_decision. Defined.

(** What the writers use of pandas and of Python's number formatting:
    [str(x)] on a number, a field as [DataFrame.to_csv] writes it, and
    [DataFrame.to_string(header=False, index=False)] on a table. *)
Class Pandas := {
  num : Type;
  num_str : num → string;
  csv_field : cell num → string;
  to_string : list (list (cell num)) → string;
}.

(** The process environment read by [add_time_stamp]: the rendering of a
    clock reading with [strftime("%Y-%m-%d:%H:%M:%S")] and the login name
    of the current user. *)
Class Host := {
  strftime : nat → string;
  getuser : string;
}.

Section tables.
Context `{Pandas}.

(** [str(c)], as f-strings and [astype(str)] apply it. *)
Definition py_str (c : cell num) : string :=
  match c with CStr s => s | CNum x => num_str x end.

(** A row of a time-series table: the columns the writer selects.  A
    table is the list of its rows with every column present; a table that
    lacks a column is not a value of these types. *)
Record SummaryRow := {
  s_label : cell num;
  s_value : cell num;
  s_error : cell num;
  s_date : cell num;
}.

(** A row of an RFT well table. *)
Record RftRow := {
  r_value : cell num;
  r_error : cell num;
  r_x : cell num;
  r_y : cell num;
  r_md : cell num;
  r_tvd : cell num;
  r_zone : cell num;
}.

Record SummaryElement := {
  vector : string;
  ts_data : list SummaryRow;
}.

Record RftElement := {
  well_name : string;
  date : cell num;
  restart : cell num;
  rft_data : list RftRow;
}.

(** [ObservationType] of [_datatypes]; every member other than the two
    the writer handles is an [OTHER]. *)
Inductive ObservationType :=
  | SUMMARY
  | RFT
  | OTHER (value : string).

(** The attributes of [obs["config"]] that the writers read:
    [name], [type], [metadata.subtype.name] and [plugin_arguments.zonemap]. *)
Record Config := {
  name : string;
  type : ObservationType;
  subtype_name : string;
  zonemap : string;
}.

Inductive ObsData :=
  | SummaryData (elements : list SummaryElement)
  | RftData (elements : list RftElement).

Record Obs := {
  config : Config;
  data : ObsData;
}.

(** Reading [obs["data"]] as a list of time-series elements: the first
    element of the other layout has no ["vector"] key. *)
Definition as_summary (d : ObsData) : exn + list SummaryElement :=
  match d with
  | SummaryData l => inr l
  | RftData [] => inr []
  | RftData (_ :: _) => inl KeyError
  end.

Definition as_rft (d : ObsData) : exn + list RftElement :=
  match d with
  | RftData l => inr l
  | SummaryData [] => inr []
  | SummaryData (_ :: _) => inl KeyError
  end.

(** [frame.to_csv(stream, index=False, header=False, sep=" ")]. *)
Definition to_csv (frame : list (list (cell num))) : string :=
  concat_strings (map (λ row, join " " (map csv_field row) +:+ NL) frame).

End tables.

(** What the writers import from [_utilities]. [check_and_fix_str] makes a
    well name safe for use as one file name component. *)
Class Utilities `{Pandas} := {
  summary_inactive : SummaryRow → bool;
  rft_inactive : RftRow → bool;
  check_and_fix_str : string → string;
}.

(** ** The writers *)

Definition GENDATA_RFT_EXPLAINER : string :=
  "-------------------------" +:+ NL +:+
  "-- GENDATA_RFT  -- Create files with simulated rft pressure" +:+ NL +:+
  "-------------------------" +:+ NL +:+
  "-- ERT doc: https://fmu-docs.equinor.com/docs/ert/reference/forward_models.html#GENDATA_RFT" +:+ NL +:+
  NL.

Definition GENDATA_EXPLAINER : string :=
  "-------------------------" +:+ NL +:+
  "-- GEN_DATA  -- Create GEN_DATA of rft for usage in AHM" +:+ NL +:+
  "-------------------------" +:+ NL +:+
  "-- ERT doc: https://fmu-docs.equinor.com/docs/ert/reference/configuration/keywords.html#gen-data" +:+ NL +:+
  NL +:+
  "--       ert id       Result file name           input format         report step" +:+ NL.

(** Modelled from the spec: [inactivate_rows] of [_utilities] is not among
    the sources.  The spec has rows that carry the inactive sentinel
    excluded, the filter being a predicate on the row; which rows carry it
    is [summary_inactive] and [rft_inactive] of [Utilities]. *)
Definition inactivate_rows {R} (inactive : R → bool) (frame : list R) : list R :=
  filter (λ r, ¬ inactive r) frame.

Section writers.
Context `{Utilities} `{Host}.

Definition add_time_stamp (text record_type comment_mark : string) : M string :=
  let* now := datetime_now in
  let ctime := strftime now in
  let user := getuser in
  let type_str := if String.eqb record_type "f" then "file" else "folder" in
  let time_stamped :=
    (comment_mark +:+ "This " +:+ type_str +:+ " is autogenerated by " +:+ user +:+ " ")
    +:+ ("running genertobs_unstable at " +:+ ctime +:+ NL) in
  let time_stamped :=
    time_stamped +:+ (comment_mark +:+ " DO NOT EDIT THIS " +:+ upper type_str +:+ " MANUALLY!" +:+ NL) in
  ret (time_stamped +:+ text).

Definition write_csv_with_comment (file_path : path) (frame : list (list (cell num))) : M unit :=
  write_text file_path (to_csv frame).

(** The rows one element contributes to the observation table, the body of
    the loop in [write_timeseries_ertobs]: the active rows, with the class
    and key columns added, the columns ordered and the value, error and date
    decorated. *)
Definition timeseries_frame (element : SummaryElement) : list (list (cell num)) :=
  let key := vector element in
  map (λ r, [ CStr "SUMMARY_OBSERVATION";
              s_label r;
              CStr ("{VALUE=" +:+ py_str (s_value r) +:+ ";");
              CStr ("ERROR=" +:+ py_str (s_error r) +:+ ";");
              CStr ("DATE=" +:+ py_str (s_date r) +:+ ";");
              CStr (("KEY=" +:+ key) +:+ ";};") ])
      (inactivate_rows summary_inactive (ts_data element)).

(** [pd.concat] raises on an empty list of frames. *)
Definition write_timeseries_ertobs (obs_dict : list SummaryElement) : exn + string :=
  let obs_frames := map timeseries_frame obs_dict in
  match obs_frames with
  | [] => inl ValueError
  | _ =>
      let obs_frames_str := to_string (concat obs_frames) in
      inr (re_sub_spaces obs_frames_str +:+ NL)
  end.

Definition create_rft_ertobs_str (element : RftElement) (prefix : string) (obs_file : path) : string :=
  ("GENERAL_OBSERVATION " +:+ well_name element +:+ "_" +:+ prefix +:+ "_OBS ")
  +:+ "{"
  +:+ ("DATA=" +:+ well_name element +:+ "_" +:+ prefix +:+ "_SIM;")
  +:+ (" RESTART = " +:+ py_str (restart element) +:+ "; ")
  +:+ ("OBS_FILE = " +:+ path_str obs_file)
  +:+ (";};" +:+ NL).

Definition create_rft_gendata_str (element : RftElement) (prefix outfolder_name : string) : string :=
  let separator_string :=
    if String.eqb prefix "PRESSURE" then "_" else "_" +:+ prefix +:+ "_" in
  ("GEN_DATA " +:+ well_name element +:+ "_" +:+ prefix +:+ "_SIM ")
  +:+ ("RESULT_FILE:" +:+ outfolder_name +:+ "/RFT" +:+ separator_string +:+ well_name element +:+ "_%d")
  +:+ (" REPORT_STEPS:" +:+ py_str (restart element) +:+ NL).

Definition write_genrft_str (parent well_date_path : path) (layer_zone_table outfolder_name : string) : M string :=
  let string_warning :=
    NL +:+ NL +:+ "!!Remember that the zone layer file: " +:+ layer_zone_table
    +:+ " will need to have path relative" +:+ NL
    +:+ " to runpath for realization, so please double check that this is the case," +:+ NL
    +:+ " otherwise you will just stop ert later!!" +:+ NL +:+ NL in
  sleep 2 >>
  warning string_warning >>
  let str_parent := path_str parent in
  ret (GENDATA_RFT_EXPLAINER
       +:+ ("DEFINE <RFT_INPUT> " +:+ path_str parent +:+ NL)
       +:+ ("FORWARD_MODEL MAKE_DIRECTORY(<DIRECTORY>=" +:+ outfolder_name +:+ ")" +:+ NL)
       +:+ "FORWARD_MODEL GENDATA_RFT(<PATH_TO_TRAJECTORY_FILES>=<RFT_INPUT>,"
       +:+ "<WELL_AND_TIME_FILE>=<RFT_INPUT>/"
       +:+ (str_remove str_parent (path_str well_date_path) +:+ ",")
       +:+ ("<ZONEMAP>=" +:+ layer_zone_table +:+ ",")
       +:+ (" <OUTPUTDIRECTORY>=" +:+ outfolder_name +:+ ")" +:+ NL +:+ NL)).

Definition write_well_rft_files (parent_folder : path) (prefix : string) (element : RftElement) : M (option path) :=
  let well_frame := inactivate_rows rft_inactive (rft_data element) in
  match well_frame with
  | [] => ret None
  | _ =>
      let fixed_file_name := check_and_fix_str (well_name element) in
      let obs_file := resolve (parent_folder ++ [lower prefix +:+ "_" +:+ fixed_file_name +:+ ".obs"]) in
      let position_file := parent_folder ++ [fixed_file_name +:+ ".txt"] in
      let obs_frame := map (λ r, [r_value r; r_error r]) well_frame in
      write_csv_with_comment obs_file obs_frame >>
      let position_frame := map (λ r, [r_x r; r_y r; r_md r; r_tvd r; r_zone r]) well_frame in
      write_csv_with_comment position_file position_frame >>
      ret (Some obs_file)
  end.

(** The two files of a well, the rows that go into them, and the row of
    the well in the table of wells, dates and restarts, as
    [write_well_rft_files] and [write_rft_ertobs] compute them. *)
Definition obs_file_of (folder : path) (prefix : string) (element : RftElement) : path :=
  folder ++ [lower prefix +:+ "_" +:+ check_and_fix_str (well_name element) +:+ ".obs"].

Definition position_file_of (folder : path) (element : RftElement) : path :=
  folder ++ [check_and_fix_str (well_name element) +:+ ".txt"].

Definition active_rows (element : RftElement) : list RftRow :=
  inactivate_rows rft_inactive (rft_data element).

Definition well_date_row (element : RftElement) : list (cell num) :=
  [CStr (well_name element); date element; restart element].

(** The wells of a table that have an active row. *)
Definition written_wells (elements : list RftElement) : list RftElement :=
  filter (λ e, active_rows e ≠ []) elements.

(** The three variables the loop of [write_rft_ertobs] updates. *)
Record RftAcc := {
  well_date_list : list (list (cell num));
  rft_ertobs_str : string;
  rft_gen_data : string;
}.

Definition rft_step (rft_folder : path) (prefix outfolder_name : string)
    (acc : RftAcc) (element : RftElement) : M RftAcc :=
  let* obs_file := write_well_rft_files rft_folder prefix element in
  match obs_file with
  | Some obs_file =>
      ret {| well_date_list :=
               well_date_list acc ++ [[CStr (well_name element); date element; restart element]];
             rft_ertobs_str :=
               rft_ertobs_str acc +:+ create_rft_ertobs_str element prefix obs_file;
             rft_gen_data :=
               rft_gen_data acc +:+ create_rft_gendata_str element prefix outfolder_name |}
  | None => ret acc
  end.

Definition write_rft_ertobs (rft_dict : Obs) (well_date_file parent_folder : path) : M (string * string) :=
  let rft_folder := parent_folder ++ ["rft"] in
  mkdir rft_folder true >>
  let prefix := subtype_name (config rft_dict) in
  let outfolder_name := "gendata_rft" in
  let* elements := lift (as_rft (data rft_dict)) in
  let* acc := foldM (rft_step rft_folder prefix outfolder_name) elements
                {| well_date_list := []; rft_ertobs_str := ""; rft_gen_data := "" |} in
  let well_date_frame := well_date_list acc in
  write_csv_with_comment well_date_file well_date_frame >>
  ret (rft_ertobs_str acc, rft_gen_data acc).

(** The three strings the loop of [write_dict_to_ertobs] updates. *)
Record ErtobsAcc := {
  gendata_rft_str : string;
  obs_str : string;
  gen_data : string;
}.

Definition set_obs_str (s : string) (acc : ErtobsAcc) : ErtobsAcc :=
  {| gendata_rft_str := gendata_rft_str acc; obs_str := s; gen_data := gen_data acc |}.

(** The comment lines that open the part of every observation entry. *)
Definition entry_header (obs : Obs) : string :=
  "--" +:+ NL +:+ "--" +:+ name (config obs) +:+ NL.

Definition UNSUPPORTED_WARNING : string :=
  "Currently not supporting other formats than timeseries and rft".

Definition ertobs_step (parent well_date_file_name : path) (gendata_rft_folder_name : string)
    (acc : ErtobsAcc) (obs : Obs) : M ErtobsAcc :=
  let obs_str := obs_str acc +:+ ("--" +:+ NL +:+ "--" +:+ name (config obs) +:+ NL) in
  match type (config obs) with
  | SUMMARY =>
      let* elements := lift (as_summary (data obs)) in
      let* summary_str := lift (write_timeseries_ertobs elements) in
      ret {| gendata_rft_str := gendata_rft_str acc;
             obs_str := obs_str +:+ summary_str;
             gen_data := gen_data acc |}
  | RFT =>
      let* gendata_rft_str :=
        (if String.eqb (gendata_rft_str acc) ""
         then write_genrft_str (parent ++ ["rft"]) well_date_file_name
                (zonemap (config obs)) gendata_rft_folder_name
         else ret (gendata_rft_str acc)) in
      let* written := write_rft_ertobs obs well_date_file_name parent in
      let rft_str_element := written.1 in
      let gen_data_element := written.2 in
      ret {| gendata_rft_str := gendata_rft_str;
             obs_str := obs_str +:+ rft_str_element;
             gen_data := gen_data acc +:+ gen_data_element |}
  | OTHER _ =>
      warning UNSUPPORTED_WARNING >>
      ret {| gendata_rft_str := gendata_rft_str acc;
             obs_str := obs_str;
             gen_data := gen_data acc |}
  end.

(** [write_dict_to_ertobs] in its three consecutive parts: the destination
    directory is made anew, it is filled entry by entry, and the collected
    strings are written out.  [finish_ertobs_dir] is the part after the
    loop. *)
Definition finish_ertobs_dir (parent : path) (acc : ErtobsAcc) : M string :=
  let ertobs_file := parent ++ ["ert_observations.obs"] in
  write_text ertobs_file (obs_str acc) >>
  (if String.eqb (gen_data acc) "" then ret tt
   else
     let gen_data := gendata_rft_str acc +:+ GENDATA_EXPLAINER +:+ gen_data acc in
     let gen_data_file := parent ++ ["gen_data_rft_wells.ert"] in
     let* stamped := add_time_stamp gen_data "f" "--" in
     write_text gen_data_file stamped) >>
  chmod parent 508 >>
  ret (obs_str acc).

(** The part from the first time stamp to the end. *)
Definition fill_ertobs_dir (obs_list : list Obs) (parent : path) : M string :=
  let well_date_file_name := parent ++ ["rft"; "well_date_restart.txt"] in
  let gendata_rft_folder_name := "gendata_rft" in
  let* stamp := add_time_stamp "" "f" "--" in
  let readme_file := parent ++ ["readme.txt"] in
  let* readme := add_time_stamp "" "d" "--" in
  write_text readme_file readme >>
  let* acc := foldM (ertobs_step parent well_date_file_name gendata_rft_folder_name) obs_list
                {| gendata_rft_str := ""; obs_str := stamp; gen_data := "" |} in
  finish_ertobs_dir parent acc.

Definition write_dict_to_ertobs (obs_list : list Obs) (parent : path) : M string :=
  let* present := path_exists parent in
  (if present
   then warning (path_str parent +:+ " exists, deleting and overwriting contents") >>
        rmtree parent
   else ret tt) >>
  mkdir parent false >>
  fill_ertobs_dir obs_list parent.

(** The same elements with the inactive rows deleted beforehand. *)
Definition active_summary (element : SummaryElement) : SummaryElement :=
  {| vector := vector element;
     ts_data := inactivate_rows summary_inactive (ts_data element) |}.

Definition active_well (element : RftElement) : RftElement :=
  {| well_name := well_name element; date := date element; restart := restart element;
     rft_data := inactivate_rows rft_inactive (rft_data element) |}.

(** An outcome of the loop with [x] put in front of the observation string. *)
Definition prepend_obs (x : string) (r : exn + (ErtobsAcc * World * list string)) :
    exn + (ErtobsAcc * World * list string) :=
  match r with
  | inl e => inl e
  | inr (acc', w', l) => inr (set_obs_str (x +:+ obs_str acc') acc', w', l)
  end.

(** Accumulators that agree on everything but the observation string. *)
Definition acc_rel (acc1 acc2 : ErtobsAcc) : Prop :=
  gendata_rft_str acc1 = gendata_rft_str acc2 ∧ gen_data acc1 = gen_data acc2.

(** [write_dict_to_ertobs] from [parent.mkdir()] on. *)
Definition make_and_fill (obs_list : list Obs) (parent : path) : M string :=
  mkdir parent false >> fill_ertobs_dir obs_list parent.

(** How two outcomes of [write_dict_to_ertobs] differ when the second list
    has one more entry, of a type the writer does not support: the entry's
    comment header [hdr] sits in the observation string and in the
    observation file, and the log has one more warning. *)
Definition differ_by_header (parent : path) (hdr : string)
    (r r' : exn + (string * World * list string)) : Prop :=
  match r with
  | inl e => r' = inl e
  | inr (s, w', log) =>
      ∃ pre post log1 log2,
        s = pre +:+ post ∧ log = log1 ++ log2 ∧
        r' = inr (pre +:+ hdr +:+ post,
                  {| fs := <[parent ++ ["ert_observations.obs"] := File (pre +:+ hdr +:+ post)]>
                             (fs w');
                     clock := clock w' |},
                  log1 ++ UNSUPPORTED_WARNING :: log2)
  end.

End writers.

(** ** The RFT merge *)

(** Measured and simulated values: a carrier with decidable equality, the
    reading of a token as a number, and the value that marks an inactive
    cell in simulated data (the spec: "a numeric value (e.g. -1)"). *)
Class Readings := {
  reading : Type;
  reading_eq_dec :: EqDecision reading;
  parse_reading : string → option reading;
  INACTIVE : reading;
}.

(** [name] without the ending [".obs"], for the files the pattern
    ["*.obs"] selects. *)
Fixpoint obs_stem (name : string) : option string :=
  match name with
  | "" => None
  | String c rest =>
      if String.eqb name ".obs" then Some ""
      else String c <$> obs_stem rest
  end.

Section merge.
Context `{Readings}.

Record SimRow := {
  sim_well : string;
  sim_step : nat;
  sim_pressure : reading;
}.

Record ObsRow := {
  obs_well : string;
  obs_step : nat;
  obs_observed : reading;
  obs_error : reading;
}.

(** Modelled from the spec: the merged comparison record of the merge
    module, which is not among the sources: "(well, time/step, simulated
    pressure [nullable], observed value, error)". *)
Record MergedRow := {
  well : string;
  time : nat;
  pressure : option reading;
  observed : reading;
  error : reading;
}.

(** Modelled from the spec: one line of an observation file, which the
    merge module (not among the sources) reads as a value and an error
    separated by blanks.  The tests fix the outcome on single lines: two
    numeric tokens make a row, further tokens are ignored, anything else
    makes none. *)
Definition parse_line (line : string) : option (reading * reading) :=
  match words line with
  | v :: e :: _ =>
      match parse_reading v, parse_reading e with
      | Some v, Some e => Some (v, e)
      | _, _ => None
      end
  | _ => None
  end.

Definition parse_obs (content : string) : list (reading * reading) :=
  omap parse_line (lines content).

(** Modelled from the spec: [get_observations] of the merge module, which
    is not among the sources.  The directory is given as the names and
    contents of its files; each file named [<well>.obs] contributes the rows
    its lines parse to, numbered from 0 within the well. *)
Definition get_observations (obsdir : list (string * string)) : list ObsRow :=
  '(fname, content) ← obsdir;
  match obs_stem fname with
  | Some w =>
      imap (λ i ve, {| obs_well := w; obs_step := i;
                       obs_observed := ve.1; obs_error := ve.2 |})
           (parse_obs content)
  | None => []
  end.

(** Modelled from the spec: "nulls arise when simulated data is flagged
    inactive". *)
Definition flag_inactive (p : reading) : option reading :=
  if decide (p = INACTIVE) then None else Some p.

Definition same_key (o : ObsRow) (s : SimRow) : Prop :=
  sim_well s = obs_well o ∧ sim_step s = obs_step o.

#[global] Instance same_key_dec o s : Decision (same_key o s).
Proof. unfold same_key. apply _. Defined.

Definition merged_row (o : ObsRow) (p : option reading) : MergedRow :=
  {| well := obs_well o; time := obs_step o; pressure := p;
     observed := obs_observed o; error := obs_error o |}.

(** Modelled from the spec: the join of the merge module, "an outer/left
    join" on "(well, step) keys" in which only the simulated pressure is
    nullable: every observed row is paired with each simulated row of its
    key, or with a null pressure when there is none. *)
Definition merge_rows (sim : list SimRow) (obs : list ObsRow) : list MergedRow :=
  o ← obs;
  match filter (same_key o) sim with
  | [] => [merged_row o None]
  | ms => (λ s, merged_row o (flag_inactive (sim_pressure s))) <$> ms
  end.

Definition merge_rft_ertobs (gendata : list SimRow) (obsdir : list (string * string)) : list MergedRow :=
  merge_rows gendata (get_observations obsdir).

Definition sim_key (s : SimRow) : string * nat := (sim_well s, sim_step s).

(** The pressure an observed row is paired with when every key has at most
    one simulated row. *)
Definition pressure_for (sim : list SimRow) (o : ObsRow) : option reading :=
  match filter (same_key o) sim with
  | [] => None
  | s :: _ => flag_inactive (sim_pressure s)
  end.

(** Marking the simulated pressure of one row as inactive. *)
Definition mark_inactive (s : SimRow) : SimRow :=
  {| sim_well := sim_well s; sim_step := sim_step s; sim_pressure := INACTIVE |}.

End merge.

(** Whole numbers in decimal, the readings of the examples. *)
Definition digit_of (c : ascii) : option Z :=
  let n := Ascii.nat_of_ascii c in
  if bool_decide (48 ≤ n ≤ 57) then Some (Z.of_nat (n - 48)) else None.

Fixpoint parse_digits (acc : Z) (s : string) : option Z :=
  match s with
  | "" => Some acc
  | String c s' => d ← digit_of c; parse_digits (10 * acc + d)%Z s'
  end.

Definition parse_int (s : string) : option Z :=
  match s with
  | "" => None
  | String c s' =>
      if bool_decide (c = "-"%char)
      then match s' with "" => None | _ => Z.opp <$> parse_digits 0 s' end
      else parse_digits 0 s
  end.

(** ** Further definitions *)

(** [select_from_dict]: the dictionary comprehension looks the keys up from
    left to right and raises at the first that is missing.  A dictionary
    with string keys is a finite map; the order of its items is not kept. *)
Fixpoint select_from_dict {V} (keys : list string) (full_dict : gmap string V) :
    exn + gmap string V :=
  match keys with
  | [] => inr ∅
  | key :: keys' =>
      match full_dict !! key with
      | None => inl KeyError
      | Some v =>
          match select_from_dict keys' full_dict with
          | inl e => inl e
          | inr d => inr (<[key := v]> d)
          end
      end
  end.

(** Two spaces side by side somewhere in [s]. *)
Fixpoint double_space (s : string) : bool :=
  match s with
  | "" => false
  | String c s' =>
      match s' with
      | "" => false
      | String c' _ => (is_space c && is_space c') || double_space s'
      end
  end.

(** The characters of [s] other than spaces. *)
Fixpoint without_spaces (s : string) : string :=
  match s with
  | "" => ""
  | String c s' => if is_space c then without_spaces s' else String c (without_spaces s')
  end.

(** [y] occurs in [s]. *)
Fixpoint contains (y s : string) : bool :=
  String.prefix y s || match s with "" => false | String _ s' => contains y s' end.

#[global] Instance ObservationType_eq_dec : EqDecision ObservationType.
Proof. solve_decision. Defined.

Section further.
Context `{Utilities} `{Host}.

Definition is_rft (obs : Obs) : Prop := type (config obs) = RFT.

#[global] Instance is_rft_dec obs : Decision (is_rft obs).
Proof. unfold is_rft. apply _. Defined.

(** The wells of an RFT entry that have an active row, and the [GEN_DATA]
    lines [write_rft_ertobs] returns for them. *)
Definition rft_wells (obs : Obs) : list RftElement :=
  match as_rft (data obs) with
  | inr elements => written_wells elements
  | inl _ => []
  end.

Definition gen_lines (obs : Obs) : string :=
  concat_strings
    (map (λ e, create_rft_gendata_str e (subtype_name (config obs)) "gendata_rft")
         (rft_wells obs)).

(** The two time stamps of [add_time_stamp] at a clock reading, header
    only: for a file and for a folder. *)
Definition stamp_of (record_type : string) (now : nat) : string :=
  match add_time_stamp "" record_type "--" {| fs := ∅; clock := now |} with
  | inr (s, _, _) => s
  | inl _ => ""
  end.

(** The [GENDATA_RFT] block [write_genrft_str] returns for the RFT folder of
    [parent] and a zone map. *)
Definition genrft_block (parent : path) (layer_zone_table : string) : string :=
  match write_genrft_str (parent ++ ["rft"]) (parent ++ ["rft"; "well_date_restart.txt"])
          layer_zone_table "gendata_rft" {| fs := ∅; clock := 0 |} with
  | inr (s, _, _) => s
  | inl _ => ""
  end.

(** The tree [write_dict_to_ertobs] starts to fill: [parent] made anew. *)
Definition fresh_dir (parent : path) (t : FS) : FS :=
  <[parent := Dir]> (match node_at t parent with
                     | Some _ => remove_tree parent t
                     | None => t
                     end).

(** What [write_dict_to_ertobs] needs of an entry: the data has the form of
    the entry's type, and a summary entry holds at least one vector. *)
Definition writable_entry (obs : Obs) : Prop :=
  match type (config obs) with
  | SUMMARY => ∃ elements, as_summary (data obs) = inr elements ∧ elements ≠ []
  | RFT => ∃ elements, as_rft (data obs) = inr elements
  | OTHER _ => True
  end.

(** [parent] is a directory in which [rft], if there, is a directory that
    holds no directory. *)
Definition rft_ready (parent : path) (t : FS) : Prop :=
  node_at t parent = Some Dir
  ∧ (∀ c, node_at t (parent ++ ["rft"]) ≠ Some (File c))
  ∧ (∀ x, t !! ((parent ++ ["rft"]) ++ [x]) ≠ Some Dir).

(** The lines of one entry in the observation string: the comment header,
    then the summary observations, or the [GENERAL_OBSERVATION] line of
    every well of the entry that has an active row. *)
Definition summary_lines (obs : Obs) : string :=
  match as_summary (data obs) with
  | inr elements =>
      match write_timeseries_ertobs elements with inr s => s | inl _ => "" end
  | inl _ => ""
  end.

Definition rft_lines (parent : path) (obs : Obs) : string :=
  let prefix := subtype_name (config obs) in
  concat_strings
    (map (λ e, create_rft_ertobs_str e prefix (obs_file_of (parent ++ ["rft"]) prefix e))
         (rft_wells obs)).

Definition entry_text (parent : path) (obs : Obs) : string :=
  entry_header obs
  +:+ match type (config obs) with
      | SUMMARY => summary_lines obs
      | RFT => rft_lines parent obs
      | OTHER _ => ""
      end.

(** The two tables [write_well_rft_files] writes for a well. *)
Definition obs_table (element : RftElement) : string :=
  to_csv (map (λ r, [r_value r; r_error r]) (active_rows element)).

Definition position_table (element : RftElement) : string :=
  to_csv (map (λ r, [r_x r; r_y r; r_md r; r_tvd r; r_zone r]) (active_rows element)).

(** Two wells whose files get the same names. *)
Definition same_file_name (e e' : RftElement) : Prop :=
  check_and_fix_str (well_name e') = check_and_fix_str (well_name e).

#[global] Instance same_file_name_dec e e' : Decision (same_file_name e e').
Proof. unfold same_file_name. apply _. Defined.
End further.

(** ** A concrete environment for examples

    Whole numbers for cell payloads and readings, rendered in decimal;
    a row is inactive when its value is [-1]; well names are used as file
    names unchanged. *)

Definition ex_show (c : cell Z) : string :=
  match c with CStr s => s | CNum x => pretty x end.

Definition ex_pandas : Pandas :=
  {| num := Z;
     num_str := pretty;
     csv_field := ex_show;
     to_string := λ t, join NL (map (λ row, join " " (map ex_show row)) t) |}.

Definition ex_host : Host :=
  {| strftime := λ n, "2024-01-01:00:00:" +:+ pretty n; getuser := "user" |}.

Definition ex_readings : Readings :=
  {| reading := Z; parse_reading := parse_int; INACTIVE := (-1)%Z |}.

Section example_data.
#[local] Existing Instance ex_pandas.
#[local] Existing Instance ex_readings.

Definition ex_utilities : Utilities :=
  {| summary_inactive := λ r, bool_decide (s_value r = CNum (-1)%Z);
     rft_inactive := λ r, bool_decide (r_value r = CNum (-1)%Z);
     check_and_fix_str := λ s, s |}.

Definition ex_row (v : Z) : RftRow :=
  {| r_value := CNum v; r_error := CNum 3%Z;
     r_x := CNum 10%Z; r_y := CNum 20%Z; r_md := CNum 30%Z; r_tvd := CNum 40%Z;
     r_zone := CStr "Valysar" |}.

Definition ex_well (w : string) (step : Z) (values : list Z) : RftElement :=
  {| well_name := w; date := CStr "2020-01-01"; restart := CNum step;
     rft_data := map ex_row values |}.

Definition ex_summary_row (v : Z) : SummaryRow :=
  {| s_label := CStr "obs"; s_value := CNum v; s_error := CNum 1%Z; s_date := CStr "2020-01-01" |}.

Definition ex_config (n : string) (t : ObservationType) : Config :=
  {| name := n; type := t; subtype_name := "PRESSURE"; zonemap := "zones.txt" |}.

Definition ex_rft_obs : Obs :=
  {| config := ex_config "rft" RFT;
     data := RftData [ex_well "A1" 1 [250; -1]%Z; ex_well "A2" 2 [-1]%Z; ex_well "A3" 3 [260]%Z] |}.

Definition ex_summary_obs : Obs :=
  {| config := ex_config "fopr" SUMMARY;
     data := SummaryData [ {| vector := "FOPR"; ts_data := [ex_summary_row 5; ex_summary_row (-1)%Z] |} ] |}.

Definition ex_other_obs : Obs :=
  {| config := ex_config "seismic" (OTHER "seismic"); data := RftData [] |}.

(** A tree in which [/out] holds a file left by an earlier run. *)
Definition ex_world : World :=
  {| fs := <[["out"; "old.txt"] := File "stale"]> (<[["out"] := Dir]> ∅); clock := 0 |}.

Definition ex_sim_row (step : nat) (p : Z) : SimRow :=
  {| sim_well := "A"; sim_step := step; sim_pressure := p |}.

Definition ex_sim : list SimRow := [ex_sim_row 0 251; ex_sim_row 1 262].

Definition ex_merged_row (step : nat) (p : option Z) (v : Z) : MergedRow :=
  {| well := "A"; time := step; pressure := p; observed := v; error := 3%Z |}.

Definition ex_obsdir : list (string * string) :=
  [ ("A.obs", "250 3" +:+ NL +:+ "260 3" +:+ NL) ].

End example_data.

(** ** Further example data *)

Section further_example_data.
#[local] Existing Instance ex_pandas.
#[local] Existing Instance ex_readings.

(** A summary entry without a vector. *)
Definition ex_empty_summary_obs : Obs :=
  {| config := ex_config "empty" SUMMARY; data := SummaryData [] |}.

(** One well measured at two dates. *)
Definition ex_twice_rft_obs : Obs :=
  {| config := ex_config "rft" RFT;
     data := RftData [ex_well "A1" 1 [250]%Z; ex_well "A1" 2 [260]%Z] |}.
End further_example_data.

(** * Properties *)

#[local] Arguments String.append !_ _ / : simpl nomatch.


(** ** Strings *)


Lemma append_assoc (a b c : string) : (a +:+ b) +:+ c = a +:+ (b +:+ c).
Proof. induction a as [|x a IH]; simpl; [done | by rewrite IH]. Qed.

Lemma append_nil_r (s : string) : s +:+ "" = s.
Proof. induction s as [|x s IH]; simpl; [done | by rewrite IH]. Qed.

Lemma length_append (a b : string) :
  String.length (a +:+ b) = String.length a + String.length b.
Proof. induction a as [|x a IH]; simpl; [done | by rewrite IH]. Qed.

(** Two strings that end in different endings of one length differ. *)
Lemma append_ending_inj (x y s t : string) :
  String.length s = String.length t → x +:+ s = y +:+ t → s = t.
Proof.
  revert y. induction x as [|c x IH]; intros [|d y] Hlen Heq; simpl in *.
  - done.
  - subst s. simpl in Hlen. rewrite length_append in Hlen. lia.
  - subst t. simpl in Hlen. rewrite length_append in Hlen. lia.
  - injection Heq as _ Heq. by apply (IH y).
Qed.

Lemma concat_strings_cons (x : string) (xs : list string) :
  concat_strings (x :: xs) = x +:+ concat_strings xs.
Proof. done. Qed.

Lemma concat_strings_app (xs ys : list string) :
  concat_strings (xs ++ ys) = concat_strings xs +:+ concat_strings ys.
Proof.
  induction xs as [|x xs IH]; [done|].
  by rewrite <- app_comm_cons, !concat_strings_cons, IH, append_assoc.
Qed.

Lemma split_on_clean (sep : ascii → bool) (s : string) :
  no_char sep s = true → split_on sep s = [s].
Proof.
  induction s as [|c s IH]; [done|]. simpl.
  intros [Hc Hs]%andb_prop. apply negb_true_iff in Hc. rewrite Hc, IH by done. done.
Qed.

Lemma split_on_at_sep (sep : ascii → bool) (s t : string) (c : ascii) :
  no_char sep s = true → sep c = true →
  split_on sep (s +:+ String c t) = s :: split_on sep t.
Proof.
  intros Hs Hc. induction s as [|d s IH]; simpl.
  - by rewrite Hc.
  - simpl in Hs. apply andb_prop in Hs as [Hd Hs]. apply negb_true_iff in Hd.
    by rewrite Hd, IH.
Qed.

Section writer_strings.
Context `{Utilities}.

(** C7: for every element, prefix and observation file,
    [create_rft_ertobs_str] returns the one line
    [GENERAL_OBSERVATION <well>_<prefix>_OBS {DATA=<well>_<prefix>_SIM;
    RESTART = <restart>; OBS_FILE = <obs_file>;};] ended by a line feed; the
    observation and the data identifier are built from one well name and
    one prefix. *)
Theorem create_rft_ertobs_str_form (element : RftElement) (prefix : string) (obs_file : path) :
  let ident := well_name element +:+ "_" +:+ prefix in
  create_rft_ertobs_str element prefix obs_file =
    "GENERAL_OBSERVATION " +:+ ident +:+ "_OBS {DATA=" +:+ ident +:+ "_SIM; RESTART = "
    +:+ py_str (restart element) +:+ "; OBS_FILE = " +:+ path_str obs_file +:+ ";};" +:+ NL.
Proof.
  unfold create_rft_ertobs_str. cbv zeta.
  repeat (rewrite ?append_assoc; simpl). done.
Qed.

(** C10: the result file of the [GEN_DATA] line is
    [<outfolder>/RFT_<well>_%d] when the prefix is exactly [PRESSURE], and
    [<outfolder>/RFT_<prefix>_<well>_%d] for every other prefix. *)
Theorem create_rft_gendata_str_result_file (element : RftElement) (prefix outfolder_name : string) :
  let w := well_name element in
  let line file_name :=
    "GEN_DATA " +:+ w +:+ "_" +:+ prefix +:+ "_SIM RESULT_FILE:" +:+ outfolder_name +:+ "/"
    +:+ file_name +:+ " REPORT_STEPS:" +:+ py_str (restart element) +:+ NL in
  (prefix = "PRESSURE" →
     create_rft_gendata_str element prefix outfolder_name = line ("RFT_" +:+ w +:+ "_%d")) ∧
  (prefix ≠ "PRESSURE" →
     create_rft_gendata_str element prefix outfolder_name
     = line ("RFT_" +:+ prefix +:+ "_" +:+ w +:+ "_%d")).
Proof.
  unfold create_rft_gendata_str. cbv zeta. split; intros Hp.
  - rewrite (proj2 (String.eqb_eq _ _) Hp).
    repeat (rewrite ?append_assoc; simpl). done.
  - rewrite (proj2 (String.eqb_neq _ _) Hp).
    repeat (rewrite ?append_assoc; simpl). done.
Qed.
End writer_strings.

(** ** The monad *)

Lemma bind_inr {A B} (m : M A) (f : A → M B) w b w2 l :
  bind m f w = inr (b, w2, l) ↔
  ∃ a w1 l1 l2, m w = inr (a, w1, l1) ∧ f a w1 = inr (b, w2, l2) ∧ l = l1 ++ l2.
Proof.
  unfold bind. split.
  - destruct (m w) as [e|[[a w1] l1]] eqn:Hm; [done|].
    destruct (f a w1) as [e|[[b' w2'] l2]] eqn:Hf; [done|].
    intros [= <- <- <-]. by exists a, w1, l1, l2.
  - intros (a & w1 & l1 & l2 & -> & -> & ->). done.
Qed.

Lemma bind_ext {A B} (m : M A) (f g : A → M B) w :
  (∀ a w1, f a w1 = g a w1) → bind m f w = bind m g w.
Proof.
  intros Hfg. unfold bind. destruct (m w) as [e|[[a w1] l1]]; [done|].
  by rewrite Hfg.
Qed.

Lemma bind_ret_l {A B} (a : A) (f : A → M B) w : bind (ret a) f w = f a w.
Proof. unfold bind, ret. by destruct (f a w) as [e|[[b w2] l2]]. Qed.

Lemma bind_assoc {A B C} (m : M A) (f : A → M B) (g : B → M C) w :
  bind (bind m f) g w = bind m (λ a, bind (f a) g) w.
Proof.
  unfold bind. destruct (m w) as [e|[[a w1] l1]]; [done|].
  destruct (f a w1) as [e|[[b w2] l2]]; [done|].
  destruct (g b w2) as [e|[[c w3] l3]]; [done|].
  by rewrite app_assoc.
Qed.

Lemma foldM_app {A S} (body : S → A → M S) xs ys acc w :
  foldM body (xs ++ ys) acc w = bind (foldM body xs acc) (foldM body ys) w.
Proof.
  revert acc w. induction xs as [|x xs IH]; intros acc w; simpl.
  - by rewrite bind_ret_l.
  - rewrite bind_assoc. by apply bind_ext.
Qed.

Lemma foldM_skip {A S} (body : S → A → M S) l1 (x : A) l2 (acc : S) w :
  (∀ acc w, body acc x w = inr (acc, w, [])) →
  foldM body (l1 ++ x :: l2) acc w = foldM body (l1 ++ l2) acc w.
Proof.
  intros Hx. rewrite !foldM_app. apply bind_ext. intros a w1. simpl.
  unfold bind. rewrite Hx. by destruct (foldM body l2 a w1) as [e|[[a' w'] l']].
Qed.

(** ** The file tree *)

Lemma dirname_snoc (p : path) (x : string) : dirname (p ++ [x]) = p.
Proof. unfold dirname. apply removelast_last. Qed.

Lemma node_at_snoc (t : FS) (p : path) (x : string) :
  node_at t (p ++ [x]) = t !! (p ++ [x]).
Proof. by destruct p. Qed.

Lemma snoc_ne_self (p : path) (x : string) : p ++ [x] ≠ p.
Proof. intros Heq. apply (f_equal length) in Heq. rewrite length_app in Heq. simpl in Heq. lia. Qed.

Lemma node_at_insert_ne (t : FS) (p q : path) (n : node) :
  p ≠ q → node_at (<[q := n]> t) p = node_at t p.
Proof. intros Hne. destruct p; [done|]. simpl. by rewrite lookup_insert_ne. Qed.

(** Two paths that differ in their last component, or in length. *)
Ltac path_ne :=
  let Heq := fresh in
  intros Heq;
  first [ by apply snoc_ne_self in Heq
        | symmetry in Heq; by apply snoc_ne_self in Heq
        | by apply app_inv_head in Heq ].

Lemma write_text_ok (p : path) (s : string) (w : World) :
  node_at (fs w) (dirname p) = Some Dir →
  node_at (fs w) p ≠ Some Dir →
  write_text p s w = inr (tt, {| fs := <[p := File s]> (fs w); clock := clock w |}, []).
Proof.
  intros Hd Hp. unfold write_text. rewrite Hd.
  destruct (node_at (fs w) p) as [[c|]|]; done.
Qed.

(** ** One well *)

Section one_well.
Context `{Utilities}.

Lemma obs_file_ne_position_file folder prefix element :
  obs_file_of folder prefix element ≠ position_file_of folder element.
Proof.
  unfold obs_file_of, position_file_of. intros Heq.
  apply app_inv_head in Heq. injection Heq as Heq.
  set (fixed := check_and_fix_str (well_name element)) in *.
  assert (Heq' : (lower prefix +:+ "_" +:+ fixed) +:+ ".obs" = fixed +:+ ".txt").
  { rewrite !append_assoc. exact Heq. }
  by apply append_ending_inj in Heq'.
Qed.

Lemma write_well_rft_files_empty folder prefix element w :
  active_rows element = [] →
  write_well_rft_files folder prefix element w = inr (None, w, []).
Proof. unfold active_rows, write_well_rft_files. by intros ->. Qed.

Lemma write_well_rft_files_nonempty folder prefix element w :
  active_rows element ≠ [] →
  node_at (fs w) folder = Some Dir →
  fs w !! obs_file_of folder prefix element ≠ Some Dir →
  fs w !! position_file_of folder element ≠ Some Dir →
  write_well_rft_files folder prefix element w =
    inr (Some (obs_file_of folder prefix element),
         {| fs := <[position_file_of folder element :=
                      File (to_csv (map (λ r, [r_x r; r_y r; r_md r; r_tvd r; r_zone r])
                                        (active_rows element)))]>
                    (<[obs_file_of folder prefix element :=
                         File (to_csv (map (λ r, [r_value r; r_error r]) (active_rows element)))]>
                       (fs w));
            clock := clock w |},
         []).
Proof.
  intros Hne Hdir Hobs Hpos.
  unfold write_well_rft_files. fold (active_rows element).
  destruct (active_rows element) as [|r rows] eqn:Hrows; [done|].
  unfold write_csv_with_comment, resolve.
  fold (obs_file_of folder prefix element) (position_file_of folder element).
  unfold bind at 1. rewrite write_text_ok; cycle 1.
  { unfold obs_file_of. by rewrite dirname_snoc. }
  { unfold obs_file_of in *. by rewrite node_at_snoc. }
  unfold bind. rewrite write_text_ok; cycle 1.
  { unfold position_file_of. rewrite dirname_snoc. simpl.
    rewrite node_at_insert_ne; [done|].
    unfold obs_file_of. intros Heq. symmetry in Heq. by apply snoc_ne_self in Heq. }
  { simpl. unfold position_file_of in *. rewrite node_at_snoc.
    rewrite lookup_insert_ne; [done|]. apply obs_file_ne_position_file. }
  done.
Qed.

(** C6: for a well with an active row, in a directory [folder] where
    neither target is a directory, [write_well_rft_files] writes exactly
    two files and returns the first: [<prefix.lower()>_<well>.obs] holds
    one line [value error] per active row, and [<well>.txt] one line
    [x y md tvd zone] per active row, fields separated by one space, with
    no header and no index; every other path is as before. *)
Theorem write_well_rft_files_two_files (folder : path) (prefix : string)
    (element : RftElement) (w : World) :
  let rows := active_rows element in
  let obs_file := obs_file_of folder prefix element in
  let position_file := position_file_of folder element in
  rows ≠ [] →
  node_at (fs w) folder = Some Dir →
  fs w !! obs_file ≠ Some Dir →
  fs w !! position_file ≠ Some Dir →
  ∃ w',
    write_well_rft_files folder prefix element w = inr (Some obs_file, w', [])
    ∧ obs_file ≠ position_file
    ∧ fs w' !! obs_file
      = Some (File (concat_strings
                      (map (λ r, (csv_field (r_value r) +:+ " " +:+ csv_field (r_error r)) +:+ NL)
                           rows)))
    ∧ fs w' !! position_file
      = Some (File (concat_strings
                      (map (λ r, (csv_field (r_x r) +:+ " " +:+ csv_field (r_y r) +:+ " "
                                  +:+ csv_field (r_md r) +:+ " " +:+ csv_field (r_tvd r) +:+ " "
                                  +:+ csv_field (r_zone r)) +:+ NL)
                           rows)))
    ∧ (∀ q, q ≠ obs_file → q ≠ position_file → fs w' !! q = fs w !! q).
Proof.
  intros rows obs_file position_file Hrows Hdir Hobs Hpos.
  eexists. split; [by apply write_well_rft_files_nonempty|].
  pose proof (obs_file_ne_position_file folder prefix element) as Hne.
  cbn [fs]. fold obs_file position_file rows in Hne |- *. split_and!.
  - done.
  - rewrite lookup_insert_ne, lookup_insert_eq by done.
    unfold to_csv. by rewrite map_map.
  - rewrite lookup_insert_eq. unfold to_csv. by rewrite map_map.
  - intros q Hq1 Hq2. by rewrite !lookup_insert_ne.
Qed.
End one_well.

Lemma write_text_inr (p : path) (s : string) (w : World) u w' l :
  write_text p s w = inr (u, w', l) →
  w' = {| fs := <[p := File s]> (fs w); clock := clock w |} ∧ l = []
  ∧ node_at (fs w) (dirname p) = Some Dir ∧ node_at (fs w) p ≠ Some Dir.
Proof.
  unfold write_text.
  destruct (node_at (fs w) (dirname p)) as [[c|]|]; [done| |done].
  destruct (node_at (fs w) p) as [[c|]|]; [|done|]; by intros [= <- <- <-].
Qed.

Lemma mkdir_inr (p : path) (exist_ok : bool) (w : World) u w' l :
  mkdir p exist_ok w = inr (u, w', l) →
  l = [] ∧ clock w' = clock w ∧
  ((exist_ok = true ∧ node_at (fs w) p = Some Dir ∧ w' = w) ∨
   (node_at (fs w) p = None ∧ node_at (fs w) (dirname p) = Some Dir
    ∧ fs w' = <[p := Dir]> (fs w))).
Proof.
  unfold mkdir.
  destruct (node_at (fs w) p) as [[c|]|] eqn:Hp; [done| |].
  - destruct exist_ok; [|done]. intros [= <- <- <-]. naive_solver.
  - destruct (node_at (fs w) (dirname p)) as [[c|]|]; [done| |done].
    intros [= <- <- <-]. naive_solver.
Qed.

Section one_call.
Context `{Utilities}.

Lemma write_well_rft_files_inr folder prefix element w r w' l :
  write_well_rft_files folder prefix element w = inr (r, w', l) →
  l = [] ∧ clock w' = clock w ∧
  ((active_rows element = [] ∧ r = None ∧ w' = w) ∨
   (active_rows element ≠ [] ∧ r = Some (obs_file_of folder prefix element) ∧
    node_at (fs w) folder = Some Dir ∧
    fs w' = <[position_file_of folder element :=
                File (to_csv (map (λ r, [r_x r; r_y r; r_md r; r_tvd r; r_zone r])
                                  (active_rows element)))]>
              (<[obs_file_of folder prefix element :=
                   File (to_csv (map (λ r, [r_value r; r_error r]) (active_rows element)))]>
                 (fs w)))).
Proof.
  unfold write_well_rft_files. fold (active_rows element).
  destruct (active_rows element) as [|r0 rows] eqn:Hrows.
  - intros [= <- <- <-]. naive_solver.
  - unfold write_csv_with_comment, resolve.
    fold (obs_file_of folder prefix element) (position_file_of folder element).
    intros (u1 & w1 & l1 & l2 & Hw1 & Hrest & ->)%bind_inr.
    apply bind_inr in Hrest as (u2 & w2 & l3 & l4 & Hw2 & Hret & ->).
    injection Hret as <- <- <-.
    apply write_text_inr in Hw1 as (-> & -> & Hd1 & _).
    apply write_text_inr in Hw2 as (-> & -> & _ & _).
    simpl. split; [done|]. split; [done|]. right.
    unfold obs_file_of in Hd1. rewrite dirname_snoc in Hd1. done.
Qed.
End one_call.

(** ** One table of wells *)

Lemma is_file_insert_file (t : FS) (p q : path) (s : string) :
  is_file t q → is_file (<[p := File s]> t) q.
Proof.
  intros [c Hc]. destruct (decide (p = q)) as [->|Hne].
  - exists s. apply lookup_insert_eq.
  - exists c. by rewrite lookup_insert_ne.
Qed.

Section one_table.
Context `{Utilities}.

Lemma written_wells_cons e elements :
  written_wells (e :: elements) =
    if decide (active_rows e = []) then written_wells elements
    else e :: written_wells elements.
Proof.
  unfold written_wells. rewrite filter_cons.
  destruct (decide (active_rows e = [])) as [He|He].
  - by rewrite decide_False by (by intros Hne).
  - by rewrite decide_True.
Qed.

Lemma rft_step_inr folder prefix out acc e w acc' w' l :
  rft_step folder prefix out acc e w = inr (acc', w', l) →
  l = [] ∧ clock w' = clock w ∧
  ((active_rows e = [] ∧ acc' = acc ∧ w' = w) ∨
   (active_rows e ≠ [] ∧
    acc' = {| well_date_list := well_date_list acc ++ [well_date_row e];
              rft_ertobs_str :=
                rft_ertobs_str acc +:+ create_rft_ertobs_str e prefix (obs_file_of folder prefix e);
              rft_gen_data := rft_gen_data acc +:+ create_rft_gendata_str e prefix out |} ∧
    is_file (fs w') (obs_file_of folder prefix e) ∧
    node_at (fs w) folder = Some Dir ∧
    (∀ q, is_file (fs w) q → is_file (fs w') q))).
Proof.
  unfold rft_step.
  intros (r & w1 & l1 & l2 & Hw & Hret & ->)%bind_inr.
  apply write_well_rft_files_inr in Hw as (-> & Hclock & [(He & -> & ->)|(He & -> & Hdir & Hfs)]).
  - injection Hret as <- <- <-. naive_solver.
  - injection Hret as <- <- <-. split; [done|]. split; [done|]. right.
    split; [done|]. split; [done|]. rewrite Hfs. split; [|split; [done|]].
    + apply is_file_insert_file. eexists. apply lookup_insert_eq.
    + intros q Hq. by do 2 apply is_file_insert_file.
Qed.

Lemma foldM_rft_step_inr folder prefix out elements acc w acc' w' l :
  foldM (rft_step folder prefix out) elements acc w = inr (acc', w', l) →
  l = [] ∧ clock w' = clock w ∧
  well_date_list acc' = well_date_list acc ++ map well_date_row (written_wells elements) ∧
  rft_ertobs_str acc' =
    rft_ertobs_str acc +:+
    concat_strings (map (λ e, create_rft_ertobs_str e prefix (obs_file_of folder prefix e))
                        (written_wells elements)) ∧
  rft_gen_data acc' =
    rft_gen_data acc +:+
    concat_strings (map (λ e, create_rft_gendata_str e prefix out) (written_wells elements)) ∧
  (∀ e, e ∈ written_wells elements → is_file (fs w') (obs_file_of folder prefix e)) ∧
  (∀ q, is_file (fs w) q → is_file (fs w') q).
Proof.
  revert acc w l. induction elements as [|e elements IH]; intros acc w l; simpl.
  - intros [= <- <- <-]. rewrite app_nil_r, !append_nil_r.
    split_and!; try done. intros e He. by apply elem_of_nil in He.
  - intros (acc1 & w1 & l1 & l2 & Hstep & Hrest & ->)%bind_inr.
    apply IH in Hrest as (-> & Hc & Hwd & Hobs & Hgen & Hfiles & Hkeep).
    rewrite written_wells_cons.
    apply rft_step_inr in Hstep
      as (-> & Hc1 & [(He & -> & ->)|(He & -> & Hfile & _ & Hkeep1)]).
    + rewrite decide_True by done. by split_and!.
    + rewrite decide_False by done.
      cbn [well_date_list rft_ertobs_str rft_gen_data map] in *.
      rewrite !concat_strings_cons, Hwd, Hobs, Hgen, <- app_assoc, !append_assoc.
      split_and!; try done; [congruence| |by eauto].
      intros e' [->|He'']%elem_of_cons; by eauto.
Qed.
End one_table.

Lemma flat_dir_insert_file (t : FS) (folder : path) (x s : string) :
  flat_dir t folder → flat_dir (<[folder ++ [x] := File s]> t) folder.
Proof.
  intros [Hd Hflat]. split.
  - rewrite node_at_insert_ne; [done|]. intros Heq. symmetry in Heq.
    by apply snoc_ne_self in Heq.
  - intros y. destruct (decide (folder ++ [x] = folder ++ [y])) as [->|Hne].
    + by rewrite lookup_insert_eq.
    + by rewrite lookup_insert_ne.
Qed.

Section one_table_total.
Context `{Utilities}.

Lemma rft_step_ok folder prefix out acc e w :
  flat_dir (fs w) folder →
  ∃ acc' w', rft_step folder prefix out acc e w = inr (acc', w', [])
             ∧ flat_dir (fs w') folder.
Proof.
  intros Hflat. unfold rft_step, bind.
  destruct (decide (active_rows e = [])) as [He|He].
  - rewrite write_well_rft_files_empty by done. simpl. by eexists _, _.
  - destruct Hflat as [Hd Hchild].
    rewrite write_well_rft_files_nonempty by (done || apply Hchild).
    simpl. eexists _, _. split; [done|]. simpl.
    by do 2 apply flat_dir_insert_file.
Qed.

Lemma foldM_rft_step_ok folder prefix out elements acc w :
  flat_dir (fs w) folder →
  ∃ acc' w', foldM (rft_step folder prefix out) elements acc w = inr (acc', w', [])
             ∧ flat_dir (fs w') folder.
Proof.
  revert acc w. induction elements as [|e elements IH]; intros acc w Hflat; simpl.
  - by eexists _, _.
  - destruct (rft_step_ok folder prefix out acc e w Hflat) as (acc1 & w1 & Hstep & Hflat1).
    destruct (IH acc1 w1 Hflat1) as (acc' & w' & Hrest & Hflat').
    exists acc', w'. unfold bind. by rewrite Hstep, Hrest.
Qed.
End one_table_total.

Section well_claims.
Context `{Utilities}.

Lemma mkdir_exist_ok_flat (parent : path) (w : World) :
  node_at (fs w) parent = Some Dir →
  (∀ c, node_at (fs w) (parent ++ ["rft"]) ≠ Some (File c)) →
  (∀ x, fs w !! ((parent ++ ["rft"]) ++ [x]) ≠ Some Dir) →
  ∃ w', mkdir (parent ++ ["rft"]) true w = inr (tt, w', [])
        ∧ flat_dir (fs w') (parent ++ ["rft"]).
Proof.
  intros Hp Hnf Hflat. unfold mkdir.
  destruct (node_at (fs w) (parent ++ ["rft"])) as [[c|]|] eqn:Hr.
  - by destruct (Hnf c).
  - by eexists.
  - rewrite dirname_snoc, Hp. eexists. split; [done|]. simpl. split.
    + rewrite node_at_snoc. apply lookup_insert_eq.
    + intros x. rewrite lookup_insert_ne; [done|]. apply not_eq_sym, snoc_ne_self.
Qed.

(** C8: whenever [write_rft_ertobs] returns, the well/date/restart file,
    the [GENERAL_OBSERVATION] lines and the [GEN_DATA] lines it has
    produced list the same wells in the same order, namely the wells with
    an active row; for each of them the observation file is on disk
    afterwards, and for every other well [write_well_rft_files] returns
    [None] and writes nothing.  And it does return when [parent] is a
    directory, no directory sits inside [parent/rft] and the well/date file
    goes into [parent/rft]. *)
Theorem write_rft_ertobs_same_wells (rft_dict : Obs) (parent : path) :
  let rft_folder := parent ++ ["rft"] in
  let prefix := subtype_name (config rft_dict) in
  (∀ well_date_file w out w' log,
     write_rft_ertobs rft_dict well_date_file parent w = inr (out, w', log) →
     ∃ elements,
       as_rft (data rft_dict) = inr elements ∧
       let wells := written_wells elements in
       out = (concat_strings
                (map (λ e, create_rft_ertobs_str e prefix (obs_file_of rft_folder prefix e))
                     wells),
              concat_strings (map (λ e, create_rft_gendata_str e prefix "gendata_rft") wells))
       ∧ fs w' !! well_date_file = Some (File (to_csv (map well_date_row wells)))
       ∧ (∀ e, e ∈ wells → is_file (fs w') (obs_file_of rft_folder prefix e))
       ∧ (∀ e, e ∈ elements → e ∉ wells →
            ∀ w0, write_well_rft_files rft_folder prefix e w0 = inr (None, w0, []))) ∧
  (∀ elements n w,
     as_rft (data rft_dict) = inr elements →
     node_at (fs w) parent = Some Dir →
     (∀ c, node_at (fs w) rft_folder ≠ Some (File c)) →
     (∀ x, fs w !! (rft_folder ++ [x]) ≠ Some Dir) →
     ∃ out w', write_rft_ertobs rft_dict (rft_folder ++ [n]) parent w = inr (out, w', [])).
Proof.
  intros rft_folder prefix.
  set (acc0 := {| well_date_list := []; rft_ertobs_str := ""; rft_gen_data := "" |}).
  split.
  - intros well_date_file w out w' log Hrun. unfold write_rft_ertobs in Hrun.
    fold rft_folder prefix acc0 in Hrun.
    apply bind_inr in Hrun as (u & w1 & l1 & l2 & _ & Hrun & _).
    apply bind_inr in Hrun as (elements & w2 & l3 & l4 & Hdata & Hrun & _).
    apply bind_inr in Hrun as (acc & w3 & l5 & l6 & Hloop & Hrun & _).
    apply bind_inr in Hrun as (u' & w4 & l7 & l8 & Hwrite & Hret & _).
    injection Hret as <- <- _.
    unfold lift in Hdata.
    destruct (as_rft (data rft_dict)) as [e|elements'] eqn:Has; [done|].
    injection Hdata as -> _ _.
    exists elements. split; [done|].
    destruct (foldM_rft_step_inr _ _ _ _ _ _ _ _ _ Hloop)
      as (_ & _ & Hwd & Hobs & Hgen & Hfiles & _).
    apply write_text_inr in Hwrite as (-> & _ & _ & _).
    cbn [fs]. split_and!.
    + by rewrite Hobs, Hgen.
    + by rewrite lookup_insert_eq, Hwd.
    + intros e He. apply is_file_insert_file. by apply Hfiles.
    + intros e He Hnot w0. apply write_well_rft_files_empty.
      destruct (decide (active_rows e = [])) as [Hempty|Hne]; [done|].
      destruct Hnot. unfold written_wells. by apply list_elem_of_filter.
  - intros elements n w Hdata Hp Hnf Hflat.
    destruct (mkdir_exist_ok_flat parent w Hp Hnf Hflat) as (w1 & Hmk & Hflat1).
    fold rft_folder in Hmk, Hflat1.
    destruct (foldM_rft_step_ok rft_folder prefix "gendata_rft" elements acc0 w1 Hflat1)
      as (acc & w2 & Hloop & [Hd2 Hchild2]).
    eexists _, _. unfold write_rft_ertobs. fold rft_folder prefix acc0. rewrite Hdata.
    unfold bind, lift, write_csv_with_comment. rewrite Hmk, Hloop.
    rewrite write_text_ok; [done| |].
    + by rewrite dirname_snoc.
    + rewrite node_at_snoc. apply Hchild2.
Qed.

(** C2: for a well whose table has no active row, [write_well_rft_files]
    returns [None], leaves the world as it was and logs nothing, and
    [write_rft_ertobs] behaves in every respect as if the well were not in
    the list. *)
Theorem write_rft_ertobs_skips_empty_well (conf : Config) (l1 l2 : list RftElement)
    (e : RftElement) (well_date_file parent : path) :
  active_rows e = [] →
  (∀ folder prefix w, write_well_rft_files folder prefix e w = inr (None, w, [])) ∧
  (∀ w, write_rft_ertobs {| config := conf; data := RftData (l1 ++ e :: l2) |}
          well_date_file parent w
        = write_rft_ertobs {| config := conf; data := RftData (l1 ++ l2) |}
            well_date_file parent w).
Proof.
  intros He. split.
  - intros folder prefix w. by apply write_well_rft_files_empty.
  - intros w. unfold write_rft_ertobs. cbn [config data as_rft].
    apply bind_ext. intros _ w1.
    change (lift (inr ?x)) with (ret (A := list RftElement) x).
    rewrite !bind_ret_l. unfold bind.
    rewrite foldM_skip; [done|].
    intros acc w2. unfold rft_step, bind.
    by rewrite write_well_rft_files_empty.
Qed.

(** ** Inactive rows *)

Lemma inactivate_rows_elem {R} (inactive : R → bool) (frame : list R) (r : R) :
  r ∈ inactivate_rows inactive frame ↔ r ∈ frame ∧ inactive r = false.
Proof.
  unfold inactivate_rows. rewrite list_elem_of_filter.
  destruct (inactive r); simpl; intuition congruence.
Qed.

Lemma inactivate_rows_local {R} (inactive : R → bool) (before after : list R) (r : R) :
  inactivate_rows inactive (before ++ r :: after) =
    inactivate_rows inactive before
    ++ (if inactive r then [] else [r])
    ++ inactivate_rows inactive after.
Proof.
  unfold inactivate_rows. rewrite filter_app, filter_cons.
  destruct (inactive r); simpl; try case_decide; done.
Qed.

Lemma inactivate_rows_idemp {R} (inactive : R → bool) (frame : list R) :
  inactivate_rows inactive (inactivate_rows inactive frame) = inactivate_rows inactive frame.
Proof. unfold inactivate_rows. rewrite list_filter_filter_l; auto. Qed.

(** C3: [inactivate_rows] decides each row by that row alone; the tables
    the two writers format hold no row that carries the sentinel; and what
    [write_timeseries_ertobs] and [write_well_rft_files] produce is what
    they produce from the data with those rows deleted beforehand. *)
Theorem inactive_rows_leave_no_trace :
  (∀ (R : Type) (inactive : R → bool) (before after : list R) (r : R),
     inactivate_rows inactive (before ++ r :: after) =
       inactivate_rows inactive before
       ++ (if inactive r then [] else [r])
       ++ inactivate_rows inactive after) ∧
  (∀ element : SummaryElement,
     Forall (λ r, summary_inactive r = false) (ts_data (active_summary element))) ∧
  (∀ element : RftElement,
     Forall (λ r, rft_inactive r = false) (rft_data (active_well element))) ∧
  (∀ obs_dict : list SummaryElement,
     write_timeseries_ertobs obs_dict = write_timeseries_ertobs (map active_summary obs_dict)) ∧
  (∀ (folder : path) (prefix : string) (element : RftElement) (w : World),
     write_well_rft_files folder prefix element w
     = write_well_rft_files folder prefix (active_well element) w).
Proof.
  split_and!.
  - intros. apply inactivate_rows_local.
  - intros element. apply Forall_forall. intros r Hr.
    by apply inactivate_rows_elem in Hr as [_ ?].
  - intros element. apply Forall_forall. intros r Hr.
    by apply inactivate_rows_elem in Hr as [_ ?].
  - intros obs_dict. unfold write_timeseries_ertobs.
    rewrite map_map.
    assert (Hframe : ∀ e, timeseries_frame (active_summary e) = timeseries_frame e).
    { intros e. unfold timeseries_frame, active_summary. simpl.
      by rewrite inactivate_rows_idemp. }
    by rewrite (map_ext _ timeseries_frame Hframe).
  - intros folder prefix element w. unfold write_well_rft_files, active_well. simpl.
    by rewrite inactivate_rows_idemp.
Qed.
End well_claims.

(** ** Unsupported entries *)

Section unsupported.
Context `{Utilities} `{Host}.

(** The observation string is only ever appended to. *)
Lemma ertobs_step_prepend parent wdf folder x acc obs w :
  ertobs_step parent wdf folder (set_obs_str (x +:+ obs_str acc) acc) obs w
  = prepend_obs x (ertobs_step parent wdf folder acc obs w).
Proof.
  unfold ertobs_step. destruct (type (config obs)).
  - unfold bind, lift.
    destruct (as_summary (data obs)) as [e|elements]; [done|].
    destruct (write_timeseries_ertobs elements) as [e|s]; [done|].
    simpl. unfold set_obs_str. simpl. by rewrite !append_assoc.
  - cbn [gendata_rft_str set_obs_str gen_data obs_str]. unfold bind.
    destruct (if String.eqb (gendata_rft_str acc) "" then _ else _) as [e|[[g w1] l1]];
      [done|].
    destruct (write_rft_ertobs obs wdf parent w1) as [e|[[[s1 s2] w2] l2]]; [done|].
    simpl. unfold set_obs_str. simpl. by rewrite !append_assoc.
  - unfold bind, warning, ret, set_obs_str. simpl. by rewrite !append_assoc.
Qed.

Lemma foldM_ertobs_step_prepend parent wdf folder x obs_list acc w :
  foldM (ertobs_step parent wdf folder) obs_list (set_obs_str (x +:+ obs_str acc) acc) w
  = prepend_obs x (foldM (ertobs_step parent wdf folder) obs_list acc w).
Proof.
  revert acc w. induction obs_list as [|obs obs_list IH]; intros acc w; simpl.
  - done.
  - unfold bind at 1. rewrite ertobs_step_prepend. unfold bind.
    destruct (ertobs_step parent wdf folder acc obs w) as [e|[[acc1 w1] l1]]; [done|].
    simpl. rewrite IH.
    by destruct (foldM (ertobs_step parent wdf folder) obs_list acc1 w1) as [e|[[acc2 w2] l2]].
Qed.

Lemma entry_header_lines obs :
  no_char is_newline (name (config obs)) = true →
  lines (entry_header obs) = ["--"; "--" +:+ name (config obs); ""].
Proof.
  intros Hname.
  change (lines (entry_header obs))
    with (split_on is_newline
            ("--" +:+ String (Ascii.ascii_of_nat 10)
               (("--" +:+ name (config obs)) +:+ String (Ascii.ascii_of_nat 10) ""))).
  rewrite (split_on_at_sep is_newline "--") by done. f_equal.
  by rewrite split_on_at_sep.
Qed.

Lemma ertobs_step_unsupported parent wdf folder acc obs w :
  type (config obs) ≠ SUMMARY → type (config obs) ≠ RFT →
  ertobs_step parent wdf folder acc obs w
  = inr (set_obs_str (obs_str acc +:+ entry_header obs) acc, w, [UNSUPPORTED_WARNING]).
Proof.
  intros Hs Hr. unfold ertobs_step. by destruct (type (config obs)).
Qed.

Lemma finish_ertobs_dir_content parent a s s' w :
  match finish_ertobs_dir parent (set_obs_str s a) w with
  | inl e => finish_ertobs_dir parent (set_obs_str s' a) w = inl e
  | inr (r, w', l) =>
      r = s ∧
      finish_ertobs_dir parent (set_obs_str s' a) w
      = inr (s', {| fs := <[parent ++ ["ert_observations.obs"] := File s']> (fs w');
                    clock := clock w' |}, l)
  end.
Proof.
  unfold finish_ertobs_dir, add_time_stamp, datetime_now, write_text, chmod.
  unfold bind, ret.
  cbn [obs_str set_obs_str gen_data gendata_rft_str fs clock].
  rewrite !dirname_snoc.
  destruct (node_at (fs w) parent) as [[c|]|] eqn:Hparent; [done| |done].
  rewrite !node_at_snoc.
  destruct (fs w !! (parent ++ ["ert_observations.obs"])) as [[c|]|] eqn:Hert; [|done|].
  all: destruct (String.eqb (gen_data a) ""); cbn [fs clock].
  all: rewrite ?node_at_snoc, ?node_at_insert_ne by path_ne.
  all: rewrite ?Hparent; cbn [fs clock].
  all: rewrite ?lookup_insert_ne by path_ne.
  all: try (destruct (fs w !! (parent ++ ["gen_data_rft_wells.ert"])) as [[c'|]|] eqn:Hgen;
            [|done|]); cbn [fs clock].
  all: rewrite ?node_at_insert_ne by path_ne.
  all: rewrite ?Hparent; cbn [fs clock].
  all: split; [done|].
  all: do 3 f_equal.
  all: rewrite ?insert_insert_eq; try done.
  all: rewrite (insert_insert_ne _ (parent ++ ["ert_observations.obs"])) by path_ne.
  all: by rewrite insert_insert_eq.
Qed.

Lemma foldM_ertobs_step_from_empty parent wdf folder x obs_list acc w :
  foldM (ertobs_step parent wdf folder) obs_list (set_obs_str x acc) w
  = prepend_obs x (foldM (ertobs_step parent wdf folder) obs_list (set_obs_str "" acc) w).
Proof.
  rewrite <- foldM_ertobs_step_prepend. unfold set_obs_str. simpl.
  by rewrite append_nil_r.
Qed.

Lemma differ_by_header_bind {A} parent hdr (m : M A) (f f' : A → M string) w :
  (∀ a w1, differ_by_header parent hdr (f a w1) (f' a w1)) →
  differ_by_header parent hdr (bind m f w) (bind m f' w).
Proof.
  intros Hf. unfold bind. destruct (m w) as [e|[[a w1] l1]]; [done|].
  specialize (Hf a w1). unfold differ_by_header in *.
  destruct (f a w1) as [e|[[s w2] l2]].
  - by rewrite Hf.
  - destruct Hf as (pre & post & log1 & log2 & -> & -> & ->).
    exists pre, post, (l1 ++ log1), log2.
    split; [done|]. split; [by rewrite app_assoc|]. by rewrite <- app_assoc.
Qed.

Lemma bind_congr_l {A B} (m m' : M A) (f : A → M B) w :
  m w = m' w → bind m f w = bind m' f w.
Proof. unfold bind. by intros ->. Qed.

Lemma foldM_ertobs_step_split parent wdf folder obs_list acc w :
  foldM (ertobs_step parent wdf folder) obs_list acc w
  = prepend_obs (obs_str acc)
      (foldM (ertobs_step parent wdf folder) obs_list (set_obs_str "" acc) w).
Proof. rewrite <- foldM_ertobs_step_from_empty. by destruct acc. Qed.

Lemma fill_ertobs_dir_unsupported l1 obs l2 parent w :
  type (config obs) ≠ SUMMARY → type (config obs) ≠ RFT →
  differ_by_header parent (entry_header obs)
    (fill_ertobs_dir (l1 ++ l2) parent w)
    (fill_ertobs_dir (l1 ++ obs :: l2) parent w).
Proof.
  intros Hs Hr. unfold fill_ertobs_dir.
  apply differ_by_header_bind. intros stamp w1.
  apply differ_by_header_bind. intros readme w2.
  apply differ_by_header_bind. intros _ w3.
  rewrite (bind_congr_l _ _ _ _ (foldM_app _ l1 l2 _ _)).
  rewrite (bind_congr_l _ _ _ _ (foldM_app _ l1 (obs :: l2) _ _)).
  rewrite !bind_assoc.
  apply differ_by_header_bind. intros a1 w4.
  cbn [foldM]. rewrite bind_assoc. unfold bind at 2.
  rewrite ertobs_step_unsupported by assumption.
  unfold bind.
  rewrite (foldM_ertobs_step_split _ _ _ l2 a1).
  rewrite (foldM_ertobs_step_from_empty _ _ _ (obs_str a1 +:+ entry_header obs)).
  destruct (foldM _ l2 (set_obs_str "" a1) w4) as [e|[[a2 w5] l5]]; [reflexivity|].
  cbn [prepend_obs].
  pose proof (finish_ertobs_dir_content parent a2 (obs_str a1 +:+ obs_str a2)
                ((obs_str a1 +:+ entry_header obs) +:+ obs_str a2) w5) as Hfin.
  destruct (finish_ertobs_dir parent (set_obs_str (obs_str a1 +:+ obs_str a2) a2) w5)
    as [e|[[r w6] l6]].
  - rewrite Hfin. reflexivity.
  - destruct Hfin as [-> Hfin]. rewrite Hfin.
    exists (obs_str a1), (obs_str a2), [], (l5 ++ l6).
    rewrite append_assoc. split; [reflexivity|]. split; reflexivity.
Qed.

(** C1: an entry whose type is neither SUMMARY nor RFT is passed over
    with one warning.  Its turn in the loop raises nothing, leaves the
    world as it was, and appends to the observation string only the
    entry's comment header, two lines that start with [--] when the name
    holds no line feed.  For the whole call: with the entry in the list,
    [write_dict_to_ertobs] raises exactly when it raises without it;
    otherwise the returned string and the observation file differ from
    those of the call without it by that header alone, every other file
    is the same, and the log differs by the one warning. *)
Theorem write_dict_to_ertobs_skips_unsupported (obs : Obs) :
  type (config obs) ≠ SUMMARY → type (config obs) ≠ RFT →
  (∀ parent well_date_file folder acc w,
     ertobs_step parent well_date_file folder acc obs w
     = inr (set_obs_str (obs_str acc +:+ entry_header obs) acc, w, [UNSUPPORTED_WARNING])) ∧
  (no_char is_newline (name (config obs)) = true →
     lines (entry_header obs) = ["--"; "--" +:+ name (config obs); ""]) ∧
  (∀ l1 l2 parent w,
     differ_by_header parent (entry_header obs)
       (write_dict_to_ertobs (l1 ++ l2) parent w)
       (write_dict_to_ertobs (l1 ++ obs :: l2) parent w)).
Proof.
  intros Hs Hr. split_and!.
  - intros. by apply ertobs_step_unsupported.
  - apply entry_header_lines.
  - intros l1 l2 parent w. unfold write_dict_to_ertobs.
    apply differ_by_header_bind. intros present w1.
    apply differ_by_header_bind. intros _ w2.
    apply differ_by_header_bind. intros _ w3.
    by apply fill_ertobs_dir_unsupported.
Qed.
End unsupported.

(** ** Deleting a tree *)

Lemma remove_tree_lookup (d q : path) (t : FS) :
  remove_tree d t !! q = if decide (d `prefix_of` q) then None else t !! q.
Proof.
  unfold remove_tree. case_decide as Hpre.
  - apply map_lookup_filter_None. right. intros n _ Hnot. by apply Hnot.
  - destruct (t !! q) as [n|] eqn:Hq.
    + by apply map_lookup_filter_Some.
    + apply map_lookup_filter_None. by left.
Qed.

Lemma remove_tree_inside (d q : path) (t : FS) :
  d `prefix_of` q → remove_tree d t !! q = None.
Proof. intros Hpre. rewrite remove_tree_lookup. by rewrite decide_True. Qed.

Lemma remove_tree_agree (d : path) (t t' : FS) :
  (∀ q, ¬ d `prefix_of` q → t' !! q = t !! q) →
  remove_tree d t' = remove_tree d t.
Proof.
  intros Hout. apply map_eq. intros q. rewrite !remove_tree_lookup.
  case_decide; [done|]. by apply Hout.
Qed.

(** In a well-formed tree nothing lies below a path that does not exist. *)
Lemma absent_no_descendants (t : FS) (d : path) :
  fs_wf t → node_at t d = None → ∀ q, d `prefix_of` q → t !! q = None.
Proof.
  intros Hwf Hd q [k ->]. induction k as [|x k IH] using rev_ind.
  - rewrite app_nil_r. destruct d; [done|]. done.
  - destruct (t !! (d ++ k ++ [x])) as [n|] eqn:Hq; [|done].
    apply Hwf in Hq. rewrite app_assoc, dirname_snoc in Hq.
    destruct (d ++ k) as [|y p] eqn:Hdk.
    + apply app_eq_nil in Hdk as [-> ->]. done.
    + simpl in Hq. congruence.
Qed.

Lemma remove_tree_absent (t : FS) (d : path) :
  fs_wf t → node_at t d = None → remove_tree d t = t.
Proof.
  intros Hwf Hd. apply map_eq. intros q. rewrite remove_tree_lookup.
  case_decide; [|done]. symmetry. by apply (absent_no_descendants t d).
Qed.

(** ** Effects stay inside the destination directory *)

Lemma tidy_ret {A} d (a : A) : tidy d (ret a).
Proof. intros w a' w' l [= <- <- <-]. done. Qed.

Lemma tidy_lift {A} d (r : exn + A) : tidy d (lift r).
Proof. intros w a' w' l. unfold lift. destruct r; [done|]. by intros [= <- <- <-]. Qed.

Lemma tidy_bind {A B} d (m : M A) (f : A → M B) :
  tidy d m → (∀ a, tidy d (f a)) → tidy d (bind m f).
Proof.
  intros Hm Hf w b w2 l (a & w1 & l1 & l2 & Hmw & Hfw & ->)%bind_inr.
  destruct (Hm _ _ _ _ Hmw) as [Hout1 Hdir1].
  destruct (Hf _ _ _ _ _ Hfw) as [Hout2 Hdir2].
  split.
  - intros q Hq. by rewrite Hout2, Hout1.
  - intros q Hq. by apply Hdir2, Hdir1.
Qed.

Lemma tidy_foldM {A S} d (body : S → A → M S) xs acc :
  (∀ acc x, tidy d (body acc x)) → tidy d (foldM body xs acc).
Proof.
  intros Hbody. revert acc. induction xs as [|x xs IH]; intros acc; simpl.
  - apply tidy_ret.
  - apply tidy_bind; [apply Hbody|]. intros acc'. apply IH.
Qed.

Lemma tidy_same_world {A} d (m : M A) :
  (∀ w a w' l, m w = inr (a, w', l) → fs w' = fs w) → tidy d m.
Proof. intros Hm w a w' l Hw. by rewrite (Hm _ _ _ _ Hw). Qed.

Lemma tidy_warning d msg : tidy d (warning msg).
Proof. apply tidy_same_world. by intros w a w' l [= <- <- <-]. Qed.

Lemma tidy_sleep d n : tidy d (sleep n).
Proof. apply tidy_same_world. by intros w a w' l [= <- <- <-]. Qed.

Lemma tidy_datetime_now d : tidy d datetime_now.
Proof. apply tidy_same_world. by intros w a w' l [= <- <- <-]. Qed.

Lemma tidy_chmod d p mode : tidy d (chmod p mode).
Proof.
  apply tidy_same_world. intros w a w' l. unfold chmod.
  destruct (node_at (fs w) p); [|done]. by intros [= <- <- <-].
Qed.

Lemma tidy_write_text d p s : d `prefix_of` p → tidy d (write_text p s).
Proof.
  intros Hp w a w' l (-> & -> & Hdir & Hnot)%write_text_inr. simpl. split.
  - intros q Hq. rewrite lookup_insert_ne; [done|]. by intros ->.
  - intros q Hq. rewrite lookup_insert_ne; [done|]. intros <-.
    destruct p; [|simpl in Hnot; congruence]. done.
Qed.

Lemma tidy_mkdir d p exist_ok : d `prefix_of` p → tidy d (mkdir p exist_ok).
Proof.
  intros Hp w a w' l (-> & Hc & [(_ & _ & ->)|(Hnone & _ & Hfs)])%mkdir_inr; [done|].
  rewrite Hfs. split.
  - intros q Hq. rewrite lookup_insert_ne; [done|]. by intros ->.
  - intros q Hq. destruct (decide (p = q)) as [->|Hne].
    + apply lookup_insert_eq.
    + by rewrite lookup_insert_ne.
Qed.

Create HintDb tidy.
#[local] Hint Resolve tidy_ret tidy_lift tidy_warning tidy_sleep tidy_datetime_now
  tidy_chmod : tidy.

Lemma prefix_of_app_r (d k : path) : d `prefix_of` d ++ k.
Proof. by exists k. Qed.

Lemma prefix_of_snoc_r (d p : path) (x : string) : d `prefix_of` p → d `prefix_of` p ++ [x].
Proof. intros. by apply prefix_app_r. Qed.

Section tidy_writers.
Context `{Utilities} `{Host}.

Lemma tidy_add_time_stamp d text record_type comment_mark :
  tidy d (add_time_stamp text record_type comment_mark).
Proof. unfold add_time_stamp. apply tidy_bind; auto with tidy. Qed.

Lemma tidy_write_well_rft_files d folder prefix element :
  d `prefix_of` folder → tidy d (write_well_rft_files folder prefix element).
Proof.
  intros Hd. unfold write_well_rft_files, write_csv_with_comment, resolve.
  destruct (inactivate_rows rft_inactive (rft_data element)); [apply tidy_ret|].
  apply tidy_bind; [by apply tidy_write_text, prefix_of_snoc_r|]. intros _.
  apply tidy_bind; [by apply tidy_write_text, prefix_of_snoc_r|]. intros _.
  apply tidy_ret.
Qed.

Lemma tidy_write_rft_ertobs d rft_dict well_date_file parent :
  d `prefix_of` parent → d `prefix_of` well_date_file →
  tidy d (write_rft_ertobs rft_dict well_date_file parent).
Proof.
  intros Hd Hwdf. unfold write_rft_ertobs, write_csv_with_comment.
  apply tidy_bind; [by apply tidy_mkdir, prefix_of_snoc_r|]. intros _.
  apply tidy_bind; [apply tidy_lift|]. intros elements.
  apply tidy_bind.
  { apply tidy_foldM. intros acc e. unfold rft_step.
    apply tidy_bind; [by apply tidy_write_well_rft_files, prefix_of_snoc_r|].
    intros [p|]; apply tidy_ret. }
  intros acc. apply tidy_bind; [by apply tidy_write_text|]. intros _. apply tidy_ret.
Qed.

Lemma tidy_write_genrft_str d parent well_date_path layer_zone_table outfolder_name :
  tidy d (write_genrft_str parent well_date_path layer_zone_table outfolder_name).
Proof. unfold write_genrft_str. repeat (apply tidy_bind; [auto with tidy|intros _]). auto with tidy. Qed.

Lemma tidy_ertobs_step parent folder acc obs :
  tidy parent (ertobs_step parent (parent ++ ["rft"; "well_date_restart.txt"]) folder acc obs).
Proof.
  unfold ertobs_step. destruct (type (config obs)).
  - repeat (apply tidy_bind; [auto with tidy|intros ?]). auto with tidy.
  - apply tidy_bind.
    { destruct (String.eqb _ _); [apply tidy_write_genrft_str|apply tidy_ret]. }
    intros g. apply tidy_bind; [|intros ?; apply tidy_ret].
    apply tidy_write_rft_ertobs; [done|apply prefix_of_app_r].
  - repeat (apply tidy_bind; [auto with tidy|intros ?]). auto with tidy.
Qed.

Lemma tidy_finish_ertobs_dir parent acc : tidy parent (finish_ertobs_dir parent acc).
Proof.
  unfold finish_ertobs_dir.
  apply tidy_bind; [apply tidy_write_text, prefix_of_app_r|]. intros _.
  apply tidy_bind.
  { destruct (String.eqb _ _); [apply tidy_ret|].
    apply tidy_bind; [apply tidy_add_time_stamp|]. intros s.
    apply tidy_write_text, prefix_of_app_r. }
  intros _. apply tidy_bind; auto with tidy.
Qed.

Lemma tidy_fill_ertobs_dir obs_list parent : tidy parent (fill_ertobs_dir obs_list parent).
Proof.
  unfold fill_ertobs_dir.
  apply tidy_bind; [apply tidy_add_time_stamp|]. intros stamp.
  apply tidy_bind; [apply tidy_add_time_stamp|]. intros readme.
  apply tidy_bind; [apply tidy_write_text, prefix_of_app_r|]. intros _.
  apply tidy_bind; [|intros acc; apply tidy_finish_ertobs_dir].
  apply tidy_foldM. intros acc obs. apply tidy_ertobs_step.
Qed.
End tidy_writers.

(** ** Which files exist does not depend on what is in them *)

Lemma shape_node_at w1 w2 p :
  same_shape w1 w2 → kind_of <$> node_at (fs w1) p = kind_of <$> node_at (fs w2) p.
Proof.
  intros Hs. destruct p as [|x p]; [done|]. simpl.
  unfold same_shape, shape in Hs.
  by rewrite <- !lookup_fmap, Hs.
Qed.

Lemma same_shape_insert w1 w2 p n1 n2 c1 c2 :
  same_shape w1 w2 → kind_of n1 = kind_of n2 →
  same_shape {| fs := <[p := n1]> (fs w1); clock := c1 |}
             {| fs := <[p := n2]> (fs w2); clock := c2 |}.
Proof.
  unfold same_shape, shape. simpl. intros Hs Hk. by rewrite !fmap_insert, Hs, Hk.
Qed.

Lemma shape_sim_ret {A} (R : A → A → Prop) a1 a2 : R a1 a2 → shape_sim R (ret a1) (ret a2).
Proof. intros HR w1 w2 Hs. done. Qed.

Lemma shape_sim_bind {A B} (R1 : A → A → Prop) (R2 : B → B → Prop) m1 m2 f1 f2 :
  shape_sim R1 m1 m2 → (∀ a1 a2, R1 a1 a2 → shape_sim R2 (f1 a1) (f2 a2)) →
  shape_sim R2 (bind m1 f1) (bind m2 f2).
Proof.
  intros Hm Hf w1 w2 Hs. specialize (Hm w1 w2 Hs). unfold bind.
  destruct (m1 w1) as [e1|[[a1 w1'] l1]], (m2 w2) as [e2|[[a2 w2'] l2]]; try done.
  destruct Hm as [HR Hs']. specialize (Hf a1 a2 HR w1' w2' Hs').
  by destruct (f1 a1 w1') as [e1|[[b1 w1''] l1']], (f2 a2 w2') as [e2|[[b2 w2''] l2']].
Qed.

Lemma shape_sim_foldM {A S} (R : S → S → Prop) (body : S → A → M S) xs acc1 acc2 :
  (∀ acc1 acc2 x, R acc1 acc2 → shape_sim R (body acc1 x) (body acc2 x)) →
  R acc1 acc2 → shape_sim R (foldM body xs acc1) (foldM body xs acc2).
Proof.
  intros Hbody. revert acc1 acc2. induction xs as [|x xs IH]; intros acc1 acc2 HR; simpl.
  - by apply shape_sim_ret.
  - eapply shape_sim_bind; [by apply Hbody|]. intros a1 a2 HR'. by apply IH.
Qed.

Lemma shape_sim_lift {A} (r : exn + A) : shape_sim eq (lift r) (lift r).
Proof. intros w1 w2 Hs. unfold lift. by destruct r. Qed.

Lemma shape_sim_warning msg1 msg2 : shape_sim eq (warning msg1) (warning msg2).
Proof. intros w1 w2 Hs. done. Qed.

Lemma shape_sim_sleep n : shape_sim eq (sleep n) (sleep n).
Proof. intros w1 w2 Hs. done. Qed.

Lemma shape_sim_datetime_now : shape_sim anything datetime_now datetime_now.
Proof. intros w1 w2 Hs. done. Qed.

Lemma shape_sim_chmod p mode : shape_sim eq (chmod p mode) (chmod p mode).
Proof.
  intros w1 w2 Hs. unfold chmod. pose proof (shape_node_at w1 w2 p Hs) as Hp.
  by destruct (node_at (fs w1) p), (node_at (fs w2) p).
Qed.

Lemma shape_sim_write_text p s1 s2 : shape_sim eq (write_text p s1) (write_text p s2).
Proof.
  intros w1 w2 Hs. unfold write_text.
  pose proof (shape_node_at w1 w2 (dirname p) Hs) as Hd.
  pose proof (shape_node_at w1 w2 p Hs) as Hp.
  destruct (node_at (fs w1) (dirname p)) as [[c1|]|],
           (node_at (fs w2) (dirname p)) as [[c2|]|]; try done.
  destruct (node_at (fs w1) p) as [[c1|]|], (node_at (fs w2) p) as [[c2|]|]; try done.
  all: split; [done|]; by apply same_shape_insert.
Qed.

Lemma shape_sim_mkdir p exist_ok : shape_sim eq (mkdir p exist_ok) (mkdir p exist_ok).
Proof.
  intros w1 w2 Hs. unfold mkdir.
  pose proof (shape_node_at w1 w2 (dirname p) Hs) as Hd.
  pose proof (shape_node_at w1 w2 p Hs) as Hp.
  destruct (node_at (fs w1) p) as [[c1|]|], (node_at (fs w2) p) as [[c2|]|]; try done.
  - by destruct exist_ok.
  - destruct (node_at (fs w1) (dirname p)) as [[c1|]|],
             (node_at (fs w2) (dirname p)) as [[c2|]|]; try done.
    split; [done|]. by apply same_shape_insert.
Qed.

Section sim_writers.
Context `{Utilities} `{Host}.

Lemma shape_sim_add_time_stamp t1 t2 r c :
  shape_sim anything (add_time_stamp t1 r c) (add_time_stamp t2 r c).
Proof.
  unfold add_time_stamp. eapply shape_sim_bind; [apply shape_sim_datetime_now|].
  intros n1 n2 _. by apply shape_sim_ret.
Qed.

Lemma shape_sim_write_well_rft_files folder prefix element :
  shape_sim eq (write_well_rft_files folder prefix element)
         (write_well_rft_files folder prefix element).
Proof.
  unfold write_well_rft_files, write_csv_with_comment.
  destruct (inactivate_rows rft_inactive (rft_data element)); [by apply shape_sim_ret|].
  eapply shape_sim_bind; [apply shape_sim_write_text|]. intros _ _ _.
  eapply shape_sim_bind; [apply shape_sim_write_text|]. intros _ _ _.
  by apply shape_sim_ret.
Qed.

Lemma shape_sim_write_rft_ertobs rft_dict well_date_file parent :
  shape_sim eq (write_rft_ertobs rft_dict well_date_file parent)
         (write_rft_ertobs rft_dict well_date_file parent).
Proof.
  unfold write_rft_ertobs, write_csv_with_comment.
  eapply shape_sim_bind; [apply shape_sim_mkdir|]. intros _ _ _.
  eapply shape_sim_bind; [apply shape_sim_lift|]. intros elements _ <-.
  eapply shape_sim_bind.
  { apply (shape_sim_foldM eq); [|done]. intros acc _ e <-. unfold rft_step.
    eapply shape_sim_bind; [apply shape_sim_write_well_rft_files|]. intros r _ <-.
    destruct r; by apply shape_sim_ret. }
  intros acc _ <-.
  eapply shape_sim_bind; [apply shape_sim_write_text|]. intros _ _ _. by apply shape_sim_ret.
Qed.

Lemma shape_sim_write_genrft_str parent well_date_path layer_zone_table outfolder_name :
  shape_sim eq (write_genrft_str parent well_date_path layer_zone_table outfolder_name)
         (write_genrft_str parent well_date_path layer_zone_table outfolder_name).
Proof.
  unfold write_genrft_str.
  eapply shape_sim_bind; [apply shape_sim_sleep|]. intros _ _ _.
  eapply shape_sim_bind; [apply shape_sim_warning|]. intros _ _ _.
  by apply shape_sim_ret.
Qed.

Lemma shape_sim_ertobs_step parent wdf folder acc1 acc2 obs :
  acc_rel acc1 acc2 →
  shape_sim acc_rel (ertobs_step parent wdf folder acc1 obs)
              (ertobs_step parent wdf folder acc2 obs).
Proof.
  intros [Hg Hd]. unfold ertobs_step. destruct (type (config obs)).
  - eapply shape_sim_bind; [apply shape_sim_lift|]. intros elements _ <-.
    eapply shape_sim_bind; [apply shape_sim_lift|]. intros s _ <-.
    by apply shape_sim_ret.
  - rewrite Hg. eapply shape_sim_bind.
    { destruct (String.eqb _ _); [apply shape_sim_write_genrft_str|by apply shape_sim_ret]. }
    intros g _ <-.
    eapply shape_sim_bind; [apply shape_sim_write_rft_ertobs|]. intros r _ <-.
    apply shape_sim_ret. split; simpl; congruence.
  - eapply shape_sim_bind; [apply shape_sim_warning|]. intros _ _ _. by apply shape_sim_ret.
Qed.

Lemma shape_sim_finish_ertobs_dir parent acc1 acc2 :
  acc_rel acc1 acc2 →
  shape_sim anything (finish_ertobs_dir parent acc1) (finish_ertobs_dir parent acc2).
Proof.
  intros [Hg Hd]. unfold finish_ertobs_dir. rewrite Hd.
  eapply shape_sim_bind; [apply shape_sim_write_text|]. intros _ _ _.
  eapply shape_sim_bind.
  { destruct (String.eqb _ _); [by apply (shape_sim_ret eq)|].
    eapply shape_sim_bind; [apply shape_sim_add_time_stamp|]. intros s1 s2 _.
    apply shape_sim_write_text. }
  intros _ _ _.
  eapply shape_sim_bind; [apply shape_sim_chmod|]. intros _ _ _. by apply shape_sim_ret.
Qed.

Lemma shape_sim_fill_ertobs_dir obs_list parent :
  shape_sim anything (fill_ertobs_dir obs_list parent) (fill_ertobs_dir obs_list parent).
Proof.
  unfold fill_ertobs_dir.
  eapply shape_sim_bind; [apply shape_sim_add_time_stamp|]. intros stamp1 stamp2 _.
  eapply shape_sim_bind; [apply shape_sim_add_time_stamp|]. intros readme1 readme2 _.
  eapply shape_sim_bind; [apply shape_sim_write_text|]. intros _ _ _.
  eapply shape_sim_bind.
  { apply (shape_sim_foldM acc_rel); [|done]. intros acc1 acc2 obs Hrel.
    by apply shape_sim_ertobs_step. }
  intros acc1 acc2 Hrel. by apply shape_sim_finish_ertobs_dir.
Qed.
End sim_writers.

(** ** Making the destination directory anew *)

Section recreate.
Context `{Utilities} `{Host}.

Lemma write_dict_to_ertobs_cases obs_list parent w :
  write_dict_to_ertobs obs_list parent w =
    match node_at (fs w) parent with
    | None => make_and_fill obs_list parent w
    | Some Dir =>
        with_log [path_str parent +:+ " exists, deleting and overwriting contents"]
          (make_and_fill obs_list parent
             {| fs := remove_tree parent (fs w); clock := clock w |})
    | Some (File _) => inl NotADirectoryError
    end.
Proof.
  unfold write_dict_to_ertobs, make_and_fill. unfold bind at 1, path_exists.
  destruct (node_at (fs w) parent) as [[c|]|] eqn:Hp; cbn [bool_decide decide_rel].
  - rewrite bool_decide_true by eauto. unfold bind at 1 2, warning, rmtree. by rewrite Hp.
  - rewrite bool_decide_true by eauto. unfold bind at 1 2, warning, rmtree. rewrite Hp.
    unfold with_log.
    by destruct (bind (mkdir parent false) _ _) as [e|[[a w'] l']].
  - rewrite bool_decide_false by (by intros [? ?]). rewrite bind_ret_l.
    by destruct (bind (mkdir parent false) _ _) as [e|[[a w'] l']].
Qed.

Lemma make_and_fill_inr obs_list parent w s w1 log :
  make_and_fill obs_list parent w = inr (s, w1, log) →
  node_at (fs w) parent = None
  ∧ fs w1 !! parent = Some Dir
  ∧ (∀ q, ¬ parent `prefix_of` q → fs w1 !! q = fs w !! q).
Proof.
  intros (u & wm & l1 & l2 & Hmk & Hfill & ->)%bind_inr.
  apply mkdir_inr in Hmk as (-> & Hc & [(? & _)|(Hnone & _ & Hfs)]); [done|].
  destruct (tidy_fill_ertobs_dir _ _ _ _ _ _ Hfill) as [Hout Hdir].
  split; [done|]. split.
  - apply Hdir. rewrite Hfs. apply lookup_insert_eq.
  - intros q Hq. rewrite Hout, Hfs by done. rewrite lookup_insert_ne; [done|].
    by intros ->.
Qed.

Lemma shape_sim_make_and_fill obs_list parent :
  shape_sim anything (make_and_fill obs_list parent) (make_and_fill obs_list parent).
Proof.
  unfold make_and_fill. eapply shape_sim_bind; [apply shape_sim_mkdir|]. intros _ _ _.
  apply shape_sim_fill_ertobs_dir.
Qed.

(** C5: a call of [write_dict_to_ertobs] that returns has made the
    destination directory from nothing: it is the call on the tree with
    [parent] and all below it deleted, it touches no path outside [parent],
    and so what lies in [parent] afterwards was put there by the call.  A
    second call on the outcome returns, at any clock reading, with the same
    paths as files and directories; at the clock reading of the first call
    it returns the same string and the same tree. *)
Theorem write_dict_to_ertobs_recreates (obs_list : list Obs) (parent : path)
    (w w1 : World) (s : string) (log : list string) :
  fs_wf (fs w) →
  write_dict_to_ertobs obs_list parent w = inr (s, w1, log) →
  let emptied := {| fs := remove_tree parent (fs w); clock := clock w |} in
  (∀ q, parent `prefix_of` q → fs emptied !! q = None)
  ∧ (∃ log0, write_dict_to_ertobs obs_list parent emptied = inr (s, w1, log0))
  ∧ (∀ q, ¬ parent `prefix_of` q → fs w1 !! q = fs w !! q)
  ∧ (∃ log2, write_dict_to_ertobs obs_list parent {| fs := fs w1; clock := clock w |}
             = inr (s, w1, log2))
  ∧ (∀ c, ∃ s2 w2 log2,
       write_dict_to_ertobs obs_list parent {| fs := fs w1; clock := c |} = inr (s2, w2, log2)
       ∧ shape (fs w2) = shape (fs w1)).
Proof.
  intros Hwf Hrun emptied.
  assert (Hfill : ∃ log0, make_and_fill obs_list parent emptied = inr (s, w1, log0)).
  { rewrite write_dict_to_ertobs_cases in Hrun.
    destruct (node_at (fs w) parent) as [[c|]|] eqn:Hp; [done| |].
    - fold emptied in Hrun. unfold with_log in Hrun.
      destruct (make_and_fill obs_list parent emptied) as [e|[[a w'] l']]; [done|].
      injection Hrun as -> -> <-. by eexists.
    - exists log. unfold emptied. rewrite remove_tree_absent by done.
      by destruct w. }
  destruct Hfill as [log0 Hfill].
  destruct (make_and_fill_inr _ _ _ _ _ _ Hfill) as (Hnone & Hdir & Hout).
  assert (Hframe : ∀ q, ¬ parent `prefix_of` q → fs w1 !! q = fs w !! q).
  { intros q Hq. rewrite Hout by done. unfold emptied. simpl.
    rewrite remove_tree_lookup. by rewrite decide_False. }
  assert (Hagain : ∀ c, write_dict_to_ertobs obs_list parent {| fs := fs w1; clock := c |}
    = with_log [path_str parent +:+ " exists, deleting and overwriting contents"]
        (make_and_fill obs_list parent {| fs := fs emptied; clock := c |})).
  { intros c. rewrite write_dict_to_ertobs_cases. cbn [fs clock].
    assert (node_at (fs w1) parent = Some Dir) as ->.
    { destruct parent; [done|]. exact Hdir. }
    by rewrite (remove_tree_agree parent (fs w) (fs w1)). }
  split_and!.
  - intros q Hq. by apply remove_tree_inside.
  - exists log0. rewrite write_dict_to_ertobs_cases. by rewrite Hnone.
  - done.
  - rewrite Hagain.
    change {| fs := fs emptied; clock := clock w |} with emptied.
    rewrite Hfill. by eexists.
  - intros c. rewrite Hagain.
    pose proof (shape_sim_make_and_fill obs_list parent emptied
                  {| fs := fs emptied; clock := c |} eq_refl) as Hsim.
    rewrite Hfill in Hsim.
    destruct (make_and_fill obs_list parent {| fs := fs emptied; clock := c |})
      as [e|[[s2 w2] l2]]; [done|].
    destruct Hsim as [_ Hshape]. by eexists _, _, _.
Qed.
End recreate.

(** ** The merge *)

Section merge_props.
Context `{Readings}.

Lemma parse_obs_length (content : string) :
  length (parse_obs content)
  = length (filter (λ l, is_Some (parse_line l)) (lines content)).
Proof.
  unfold parse_obs. induction (lines content) as [|l ls IH]; [done|].
  simpl. rewrite filter_cons. destruct (parse_line l) as [ve|] eqn:Hl.
  - rewrite decide_True by eauto. simpl. f_equal. apply IH.
  - rewrite decide_False by (by intros [? ?]). apply IH.
Qed.

Lemma get_observations_app (d1 d2 : list (string * string)) :
  get_observations (d1 ++ d2) = get_observations d1 ++ get_observations d2.
Proof. unfold get_observations. apply bind_app. Qed.

Lemma filter_same_key_unique (o : ObsRow) (sim : list SimRow) :
  NoDup (sim_key <$> sim) →
  filter (same_key o) sim = [] ∨ ∃ s, filter (same_key o) sim = [s].
Proof.
  induction sim as [|a sim IH]; intros Hnd; [by left|].
  rewrite fmap_cons in Hnd. apply NoDup_cons in Hnd as [Ha Hnd].
  rewrite filter_cons. destruct (decide (same_key o a)) as [Hk|Hk].
  - right. exists a. f_equal.
    destruct (filter (same_key o) sim) as [|b rest] eqn:Hf; [done|].
    exfalso. apply Ha.
    assert (Hb : b ∈ filter (same_key o) sim) by (rewrite Hf; apply list_elem_of_here).
    apply list_elem_of_filter in Hb as [Hkb Hb].
    apply list_elem_of_fmap. exists b. split; [|done].
    unfold sim_key. destruct Hk as [-> ->], Hkb as [-> ->]. done.
  - by apply IH.
Qed.

Lemma merge_rows_unique (sim : list SimRow) (obs : list ObsRow) :
  NoDup (sim_key <$> sim) →
  merge_rows sim obs = (λ o, merged_row o (pressure_for sim o)) <$> obs.
Proof.
  intros Hnd. unfold merge_rows. induction obs as [|o obs IH]; [done|].
  rewrite bind_cons, fmap_cons, IH. unfold pressure_for.
  by destruct (filter_same_key_unique o sim Hnd) as [->|[s ->]].
Qed.

Lemma pressure_for_mark (before after : list SimRow) (s : SimRow) (o : ObsRow) :
  NoDup (sim_key <$> before ++ s :: after) →
  pressure_for (before ++ mark_inactive s :: after) o
  = if decide (same_key o s) then None else pressure_for (before ++ s :: after) o.
Proof.
  intros Hnd. unfold pressure_for. rewrite !filter_app, !filter_cons.
  assert (Hmark : same_key o (mark_inactive s) ↔ same_key o s) by done.
  destruct (decide (same_key o s)) as [Hk|Hk].
  - rewrite decide_True by done.
    destruct (filter (same_key o) before) as [|b rest] eqn:Hb.
    + simpl. unfold flag_inactive. by rewrite decide_True.
    + exfalso. rewrite fmap_app, fmap_cons in Hnd.
      apply NoDup_app in Hnd as (_ & Hdis & _). apply (Hdis (sim_key s)).
      * assert (Hin : b ∈ filter (same_key o) before) by (rewrite Hb; apply list_elem_of_here).
        apply list_elem_of_filter in Hin as [Hkb Hin].
        apply list_elem_of_fmap. exists b. split; [|done].
        unfold sim_key. destruct Hk as [-> ->], Hkb as [-> ->]. done.
      * apply list_elem_of_here.
  - by rewrite decide_False by done.
Qed.

Lemma pressure_for_matched (sim : list SimRow) (o : ObsRow) (s : SimRow) :
  NoDup (sim_key <$> sim) → s ∈ sim → same_key o s →
  pressure_for sim o = flag_inactive (sim_pressure s).
Proof.
  intros Hnd Hs Hk. unfold pressure_for.
  assert (Hin : s ∈ filter (same_key o) sim) by (by apply list_elem_of_filter).
  destruct (filter_same_key_unique o sim Hnd) as [Hf|[s' Hf]]; rewrite Hf in Hin |- *.
  - by apply elem_of_nil in Hin.
  - by apply list_elem_of_singleton in Hin as ->.
Qed.

Lemma flag_inactive_None (p : reading) : flag_inactive p = None ↔ p = INACTIVE.
Proof. unfold flag_inactive. by case_decide. Qed.

Lemma obs_stem_suffix (w : string) : obs_stem (w +:+ ".obs") = Some w.
Proof.
  induction w as [|c w IH]; [done|].
  cbn [String.append obs_stem]. rewrite IH.
  destruct (String.eqb_spec (String c (w +:+ ".obs")) ".obs") as [Heq|Hne]; [|done].
  apply (f_equal String.length) in Heq. simpl in Heq.
  rewrite length_append in Heq. simpl in Heq. lia.
Qed.

(** C4: the merged table keeps every observed row, each output row being
    an observed row (well, time, observed, error) with a pressure that may
    be null.  When every (well, step) key has one simulated row, there is
    one output row per observed row, the pressure of a row that has a
    simulated row is null exactly when that row's pressure is the inactive
    value, and marking the pressure of one simulated row inactive nulls
    the rows of its key and leaves all other rows as they were. *)
Theorem merge_rft_ertobs_keeps_observed (gendata : list SimRow)
    (obsdir : list (string * string)) :
  let obs := get_observations obsdir in
  let merged := merge_rft_ertobs gendata obsdir in
  (∀ o, o ∈ obs → ∃ p, merged_row o p ∈ merged) ∧
  (∀ m, m ∈ merged → ∃ o p, o ∈ obs ∧ m = merged_row o p) ∧
  (NoDup (sim_key <$> gendata) →
     merged = (λ o, merged_row o (pressure_for gendata o)) <$> obs ∧
     (∀ o s, s ∈ gendata → same_key o s →
        (pressure_for gendata o = None ↔ sim_pressure s = INACTIVE)) ∧
     (∀ before s after, gendata = before ++ s :: after →
        merge_rft_ertobs (before ++ mark_inactive s :: after) obsdir
        = (λ o, merged_row o (if decide (same_key o s) then None
                              else pressure_for gendata o)) <$> obs)).
Proof.
  intros obs merged. unfold merged, merge_rft_ertobs. fold obs. split_and!.
  - intros o Ho. unfold merge_rows.
    destruct (filter (same_key o) gendata) as [|s ms] eqn:Hf.
    + exists None. apply list_elem_of_bind. exists o. split; [|done].
      rewrite Hf. apply list_elem_of_here.
    + exists (flag_inactive (sim_pressure s)). apply list_elem_of_bind. exists o.
      split; [|done]. rewrite Hf. apply list_elem_of_here.
  - intros m (o & Hm & Ho)%list_elem_of_bind. exists o.
    destruct (filter (same_key o) gendata) as [|s ms].
    + apply list_elem_of_singleton in Hm. by exists None.
    + apply list_elem_of_fmap in Hm as (s' & -> & _). by eexists.
  - intros Hnd. split_and!.
    + by apply merge_rows_unique.
    + intros o s Hs Hk. rewrite (pressure_for_matched gendata o s) by done.
      apply flag_inactive_None.
    + intros before s after ->.
      rewrite merge_rows_unique.
      * apply list_fmap_ext. intros i o _. f_equal. by apply pressure_for_mark.
      * by rewrite fmap_app, fmap_cons in *.
Qed.

(** C9: [get_observations] is total; a file yields one row per line that
    parses, where a line parses when its first two tokens are numbers,
    further tokens being ignored and fewer than two tokens giving no row;
    and a file in the observation directory none of whose lines parses
    changes neither the observation table nor the merged table. *)
Theorem get_observations_tolerates_malformed :
  (∀ content : string,
     length (parse_obs content)
     = length (filter (λ l, is_Some (parse_line l)) (lines content))) ∧
  (∀ (w content : string),
     length (get_observations [(w +:+ ".obs", content)]) = length (parse_obs content)) ∧
  (∀ (line v e : string) (rest : list string),
     words line = v :: e :: rest →
     parse_line line = (a ← parse_reading v; b ← parse_reading e; Some (a, b))) ∧
  (∀ line : string, length (words line) < 2 → parse_line line = None) ∧
  (∀ (gendata : list SimRow) (before after : list (string * string)) (name content : string),
     parse_obs content = [] →
     get_observations (before ++ (name, content) :: after) = get_observations (before ++ after)
     ∧ merge_rft_ertobs gendata (before ++ (name, content) :: after)
       = merge_rft_ertobs gendata (before ++ after)).
Proof.
  split_and!.
  - apply parse_obs_length.
  - intros w content. unfold get_observations. rewrite bind_singleton, obs_stem_suffix.
    apply length_imap.
  - intros line v e rest Hw. unfold parse_line. rewrite Hw.
    by destruct (parse_reading v), (parse_reading e).
  - intros line Hlen. unfold parse_line.
    destruct (words line) as [|v [|e rest]]; simpl in *; [done|done|lia].
  - intros gendata before after name content Hnone.
    assert (Hobs : get_observations (before ++ (name, content) :: after)
                   = get_observations (before ++ after)).
    { rewrite !get_observations_app. f_equal.
      change ((name, content) :: after) with ([(name, content)] ++ after).
      rewrite get_observations_app. unfold get_observations at 1.
      rewrite bind_singleton, Hnone. by destruct (obs_stem name). }
    split; [done|]. unfold merge_rft_ertobs. by rewrite Hobs.
Qed.
End merge_props.

(** ** Worked examples *)

Section examples.
#[local] Existing Instance ex_pandas.
#[local] Existing Instance ex_utilities.
#[local] Existing Instance ex_host.
#[local] Existing Instance ex_readings.

Lemma write_dict_to_ertobs_skips_unsupported_witness :
  type (config ex_other_obs) ≠ SUMMARY ∧ type (config ex_other_obs) ≠ RFT ∧
  differ_by_header ["out"] (entry_header ex_other_obs)
    (write_dict_to_ertobs [ex_rft_obs; ex_summary_obs] ["out"] ex_world)
    (write_dict_to_ertobs [ex_rft_obs; ex_other_obs; ex_summary_obs] ["out"] ex_world).
Proof.
  assert (H1 : type (config ex_other_obs) ≠ SUMMARY) by (simpl; discriminate).
  assert (H2 : type (config ex_other_obs) ≠ RFT) by (simpl; discriminate).
  split; [exact H1|]. split; [exact H2|].
  exact (proj2 (proj2 (write_dict_to_ertobs_skips_unsupported ex_other_obs H1 H2))
           [ex_rft_obs] [ex_summary_obs] ["out"] ex_world).
Defined.

Lemma write_rft_ertobs_skips_empty_well_witness :
  active_rows (ex_well "A2" 2 [-1]%Z) = [] ∧
  ∀ w, write_rft_ertobs ex_rft_obs ["out"; "rft"; "well_date_restart.txt"] ["out"] w
       = write_rft_ertobs
           {| config := config ex_rft_obs;
              data := RftData [ex_well "A1" 1 [250; -1]%Z; ex_well "A3" 3 [260]%Z] |}
           ["out"; "rft"; "well_date_restart.txt"] ["out"] w.
Proof.
  assert (He : active_rows (ex_well "A2" 2 [-1]%Z) = []) by reflexivity.
  split; [exact He|].
  exact (proj2 (write_rft_ertobs_skips_empty_well (config ex_rft_obs)
                  [ex_well "A1" 1 [250; -1]%Z] [ex_well "A3" 3 [260]%Z]
                  (ex_well "A2" 2 [-1]%Z)
                  ["out"; "rft"; "well_date_restart.txt"] ["out"] He)).
Defined.

Lemma merge_rft_ertobs_keeps_observed_witness :
  NoDup (sim_key <$> ex_sim) ∧
  merge_rft_ertobs [mark_inactive (ex_sim_row 0 251); ex_sim_row 1 262] ex_obsdir
  = [ex_merged_row 0 None 250; ex_merged_row 1 (Some 262%Z) 260].
Proof.
  assert (Hnd : NoDup (sim_key <$> ex_sim)).
  { apply (bool_decide_unpack _). vm_compute. exact I. }
  split; [exact Hnd|].
  destruct (merge_rft_ertobs_keeps_observed ex_sim ex_obsdir) as (_ & _ & Hunique).
  destruct (Hunique Hnd) as (_ & _ & Hmark).
  etransitivity; [exact (Hmark [] (ex_sim_row 0 251) [ex_sim_row 1 262] eq_refl)|].
  vm_compute. exact eq_refl.
Defined.

Lemma write_dict_to_ertobs_recreates_witness :
  fs_wf (fs ex_world) ∧
  ∃ s w1 log,
    write_dict_to_ertobs [ex_rft_obs; ex_other_obs; ex_summary_obs] ["out"] ex_world
    = inr (s, w1, log)
    ∧ fs w1 !! ["out"; "old.txt"] = None
    ∧ ∃ s2 w2 log2,
        write_dict_to_ertobs [ex_rft_obs; ex_other_obs; ex_summary_obs] ["out"]
          {| fs := fs w1; clock := 100 |} = inr (s2, w2, log2)
        ∧ shape (fs w2) = shape (fs w1).
Proof.
  assert (Hwf : fs_wf (fs ex_world)).
  { unfold fs_wf. apply (bool_decide_unpack _). vm_compute. exact I. }
  split; [exact Hwf|].
  destruct (write_dict_to_ertobs [ex_rft_obs; ex_other_obs; ex_summary_obs] ["out"] ex_world)
    as [e|[[s w1] log]] eqn:Hrun.
  { exfalso. vm_compute in Hrun. discriminate Hrun. }
  exists s, w1, log. split; [reflexivity|].
  destruct (write_dict_to_ertobs_recreates _ _ _ _ _ _ Hwf Hrun)
    as (_ & _ & _ & _ & Hagain).
  split; [|exact (Hagain 100)].
  vm_compute in Hrun. injection Hrun as _ <- _. vm_compute. reflexivity.
Defined.

Lemma write_well_rft_files_two_files_witness :
  active_rows (ex_well "A1" 1 [250; -1]%Z) ≠ [] ∧
  node_at (fs ex_world) ["out"] = Some Dir ∧
  ∃ w',
    write_well_rft_files ["out"] "PRESSURE" (ex_well "A1" 1 [250; -1]%Z) ex_world
    = inr (Some ["out"; "pressure_A1.obs"], w', [])
    ∧ fs w' !! ["out"; "pressure_A1.obs"] = Some (File ("250 3" +:+ NL))
    ∧ fs w' !! ["out"; "A1.txt"] = Some (File ("10 20 30 40 Valysar" +:+ NL)).
Proof.
  assert (Hrows : active_rows (ex_well "A1" 1 [250; -1]%Z) ≠ []) by (vm_compute; discriminate).
  assert (Hdir : node_at (fs ex_world) ["out"] = Some Dir) by reflexivity.
  split; [exact Hrows|]. split; [exact Hdir|].
  destruct (write_well_rft_files_two_files ["out"] "PRESSURE" (ex_well "A1" 1 [250; -1]%Z)
              ex_world Hrows Hdir) as (w' & Hrun & _ & Hobs & Hpos & _).
  { vm_compute. discriminate. }
  { vm_compute. discriminate. }
  exists w'. split; [exact Hrun|]. split; [exact Hobs|exact Hpos].
Defined.

Lemma write_rft_ertobs_same_wells_witness :
  node_at (fs ex_world) ["out"] = Some Dir ∧
  ∃ w' log,
    write_rft_ertobs ex_rft_obs ["out"; "rft"; "well_date_restart.txt"] ["out"] ex_world
    = inr (("GENERAL_OBSERVATION A1_PRESSURE_OBS {DATA=A1_PRESSURE_SIM; RESTART = 1; OBS_FILE = /out/rft/pressure_A1.obs;};" +:+ NL +:+
            "GENERAL_OBSERVATION A3_PRESSURE_OBS {DATA=A3_PRESSURE_SIM; RESTART = 3; OBS_FILE = /out/rft/pressure_A3.obs;};" +:+ NL,
            "GEN_DATA A1_PRESSURE_SIM RESULT_FILE:gendata_rft/RFT_A1_%d REPORT_STEPS:1" +:+ NL +:+
            "GEN_DATA A3_PRESSURE_SIM RESULT_FILE:gendata_rft/RFT_A3_%d REPORT_STEPS:3" +:+ NL),
           w', log)
    ∧ fs w' !! ["out"; "rft"; "well_date_restart.txt"]
      = Some (File ("A1 2020-01-01 1" +:+ NL +:+ "A3 2020-01-01 3" +:+ NL)).
Proof.
  assert (Hdir : node_at (fs ex_world) ["out"] = Some Dir) by reflexivity.
  split; [exact Hdir|].
  destruct (write_rft_ertobs_same_wells ex_rft_obs ["out"]) as [Hsame Hreturns].
  destruct (Hreturns
              [ex_well "A1" 1 [250; -1]%Z; ex_well "A2" 2 [-1]%Z; ex_well "A3" 3 [260]%Z]
              "well_date_restart.txt" ex_world eq_refl Hdir)
    as (out & w' & Hrun).
  { intros c. vm_compute. discriminate. }
  { intros x. unfold ex_world. cbn [fs app].
    rewrite !lookup_insert_ne by discriminate. by rewrite lookup_empty. }
  destruct (Hsame _ _ _ _ _ Hrun) as (elements & Hdata & -> & Hfile & _).
  injection Hdata as <-.
  exists w', []. split; [exact Hrun|exact Hfile].
Defined.

Lemma get_observations_tolerates_malformed_witness :
  parse_obs "FOBOBAR" = [] ∧
  merge_rft_ertobs ex_sim (ex_obsdir ++ [("FOO.obs", "FOBOBAR")])
  = merge_rft_ertobs ex_sim ex_obsdir.
Proof.
  assert (Hnone : parse_obs "FOBOBAR" = []) by reflexivity.
  split; [exact Hnone|].
  destruct get_observations_tolerates_malformed as (_ & _ & _ & _ & Hstray).
  exact (proj2 (Hstray ex_sim ex_obsdir [] "FOO.obs" "FOBOBAR" Hnone)).
Defined.

Lemma create_rft_gendata_str_result_file_witness :
  create_rft_gendata_str (ex_well "A1" 1 [250%Z]) "PRESSURE" "gendata_rft"
  = "GEN_DATA A1_PRESSURE_SIM RESULT_FILE:gendata_rft/RFT_A1_%d REPORT_STEPS:1" +:+ NL
  ∧ create_rft_gendata_str (ex_well "A1" 1 [250%Z]) "SWAT" "gendata_rft"
  = "GEN_DATA A1_SWAT_SIM RESULT_FILE:gendata_rft/RFT_SWAT_A1_%d REPORT_STEPS:1" +:+ NL.
Proof.
  split.
  - apply (proj1 (create_rft_gendata_str_result_file (ex_well "A1" 1 [250%Z])
                    "PRESSURE" "gendata_rft")).
    reflexivity.
  - apply (proj2 (create_rft_gendata_str_result_file (ex_well "A1" 1 [250%Z])
                    "SWAT" "gendata_rft")).
    vm_compute. discriminate.
Defined.

(** The table of [test_get_observations_invalid]: the number of rows read
    from a file [foo.obs] with the given content. *)
Example get_observations_test_table :
  map (λ content, length (get_observations [("foo.obs", content)]))
      [""; "12"; "12  3"; "hei"; "hei hopp"; "12 hei"; "hei 3"; "3 4 5"; "12 -1"]
  = [0; 0; 1; 0; 0; 0; 0; 1; 1].
Proof. reflexivity. Qed.

(** [test_extra_obs_file]: a stray file does not change the number of
    merged rows. *)
Example merge_with_stray_file :
  length (merge_rft_ertobs ex_sim (ex_obsdir ++ [("FOO.obs", "FOBOBAR")]))
  = length (merge_rft_ertobs ex_sim ex_obsdir).
Proof. reflexivity. Qed.

End examples.

(** * Further properties *)

(** ** Selecting keys *)

Lemma select_from_dict_lookup {V} (keys : list string) (full_dict d : gmap string V) :
  select_from_dict keys full_dict = inr d →
  ∀ k, d !! k = if decide (k ∈ keys) then full_dict !! k else None.
Proof.
  revert d. induction keys as [|key keys IH]; intros d; cbn [select_from_dict].
  - intros [= <-] k. case_decide as Hin; [by apply elem_of_nil in Hin|apply lookup_empty].
  - destruct (full_dict !! key) as [v|] eqn:Hkey; [|done].
    destruct (select_from_dict keys full_dict) as [e|d'] eqn:Hrest; [done|].
    intros [= <-] k. destruct (decide (key = k)) as [->|Hne].
    + rewrite lookup_insert_eq. case_decide as Hin; [done|].
      destruct Hin. apply list_elem_of_here.
    + rewrite lookup_insert_ne, (IH d' eq_refl k) by done.
      repeat case_decide; try done.
      * exfalso. eauto using list_elem_of_further.
      * exfalso. match goal with Hk : k ∈ key :: keys |- _ =>
          apply elem_of_cons in Hk as [->|?]; done end.
Qed.

(** X1: [select_from_dict] returns exactly when every key is in the
    dictionary, and then with the entries of the dictionary whose key is one
    of the keys, nothing more and nothing changed; when a key is missing it
    raises [KeyError]. *)
Theorem select_from_dict_spec {V} (keys : list string) (full_dict : gmap string V) :
  match select_from_dict keys full_dict with
  | inr d =>
      Forall (λ k, is_Some (full_dict !! k)) keys
      ∧ d = filter (λ kv, kv.1 ∈ keys) full_dict
  | inl e => e = KeyError ∧ Exists (λ k, full_dict !! k = None) keys
  end.
Proof.
  destruct (select_from_dict keys full_dict) as [e|d] eqn:Hsel.
  - revert Hsel. induction keys as [|key keys IH]; simpl; [done|].
    destruct (full_dict !! key) as [v|] eqn:Hkey.
    + destruct (select_from_dict keys full_dict) as [e'|d'] eqn:Hrest; [|done].
      intros [= <-]. destruct (IH eq_refl) as [-> Hex]. split; [done|].
      by apply Exists_cons_tl.
    + intros [= <-]. split; [done|]. by apply Exists_cons_hd.
  - split.
    + revert d Hsel. induction keys as [|key keys IH]; intros d; simpl; [done|].
      destruct (full_dict !! key) as [v|] eqn:Hkey; [|done].
      destruct (select_from_dict keys full_dict) as [e'|d'] eqn:Hrest; [done|].
      intros _. apply Forall_cons. split; [by eexists|]. by apply (IH d').
    + apply map_eq. intros k. rewrite (select_from_dict_lookup _ _ _ Hsel).
      destruct (decide (k ∈ keys)) as [Hin|Hout].
      * destruct (full_dict !! k) as [v|] eqn:Hk.
        -- symmetry. by apply map_lookup_filter_Some.
        -- symmetry. apply map_lookup_filter_None. by left.
      * symmetry. apply map_lookup_filter_None. right. intros v _. done.
Qed.

(** ** Collapsing spaces *)

Lemma re_sub_spaces_cons (c : ascii) (s : string) :
  re_sub_spaces (String c s) =
    if is_space c then
      match s with
      | "" => String c ""
      | String c' _ => if is_space c' then re_sub_spaces s else String c (re_sub_spaces s)
      end
    else String c (re_sub_spaces s).
Proof. done. Qed.

Lemma is_space_eq (c c' : ascii) : is_space c = true → is_space c' = true → c = c'.
Proof. unfold is_space. intros Hc%bool_decide_eq_true Hc'%bool_decide_eq_true. congruence. Qed.

Lemma re_sub_spaces_head (c : ascii) (s : string) :
  ∃ r, re_sub_spaces (String c s) = String c r.
Proof.
  revert c. induction s as [|c' s IH]; intros c; rewrite re_sub_spaces_cons.
  - destruct (is_space c); by eexists.
  - destruct (is_space c) eqn:Hc; [|by eexists].
    destruct (is_space c') eqn:Hc'; [|by eexists].
    destruct (IH c') as [r Hr]. exists r. rewrite Hr.
    by rewrite (is_space_eq c c').
Qed.

Lemma double_space_cons (c c' : ascii) (s : string) :
  double_space (String c (String c' s))
  = (is_space c && is_space c') || double_space (String c' s).
Proof. done. Qed.

Lemma re_sub_spaces_no_double (s : string) : double_space (re_sub_spaces s) = false.
Proof.
  induction s as [|c s IH]; [done|].
  rewrite re_sub_spaces_cons. destruct s as [|c' s].
  - by destruct (is_space c).
  - destruct (re_sub_spaces_head c' s) as [r Hr]. rewrite Hr in IH |- *.
    destruct (is_space c) eqn:Hc.
    + destruct (is_space c') eqn:Hc'; [done|].
      by rewrite double_space_cons, IH, Hc', andb_false_r.
    + by rewrite double_space_cons, IH, Hc.
Qed.

Lemma re_sub_spaces_fixed (s : string) :
  double_space s = false → re_sub_spaces s = s.
Proof.
  induction s as [|c s IH]; [done|].
  rewrite re_sub_spaces_cons. destruct s as [|c' s].
  - intros _. by destruct (is_space c).
  - rewrite double_space_cons. intros [Hcc Hd]%orb_false_elim.
    rewrite (IH Hd). destruct (is_space c); [|done].
    simpl in Hcc. by rewrite Hcc.
Qed.

Lemma re_sub_spaces_keeps_text (s : string) :
  without_spaces (re_sub_spaces s) = without_spaces s.
Proof.
  induction s as [|c s IH]; [done|].
  rewrite re_sub_spaces_cons. destruct s as [|c' s].
  - by destruct (is_space c).
  - destruct (is_space c) eqn:Hc.
    + destruct (is_space c') eqn:Hc'.
      * rewrite IH. cbn [without_spaces]. by rewrite Hc.
      * cbn [without_spaces] in *. by rewrite Hc, IH.
    + cbn [without_spaces] in *. by rewrite Hc, IH.
Qed.

Section timeseries.
Context `{Utilities} `{Host}.

(** X2: [write_timeseries_ertobs] raises [ValueError] exactly on an
    empty list of elements, where there is no table to concatenate.  On any
    other list the string it returns is one newline after a text that has
    no two spaces side by side and that differs from the printed table in
    spaces only. *)
Theorem write_timeseries_ertobs_single_spaces (obs_dict : list SummaryElement) :
  match write_timeseries_ertobs obs_dict with
  | inr s =>
      obs_dict ≠ [] ∧
      ∃ t, s = t +:+ NL ∧ double_space t = false
           ∧ without_spaces t
             = without_spaces (to_string (concat (map timeseries_frame obs_dict)))
  | inl e => e = ValueError ∧ obs_dict = []
  end.
Proof.
  unfold write_timeseries_ertobs. destruct obs_dict as [|element obs_dict]; [done|].
  cbn [map]. split; [done|]. eexists. split; [done|]. split.
  - apply re_sub_spaces_no_double.
  - apply re_sub_spaces_keeps_text.
Qed.

(** ** An entry without data *)

Lemma bind_inl_l {A B} (m : M A) (f : A → M B) w e :
  m w = inl e → bind m f w = inl e.
Proof. unfold bind. by intros ->. Qed.

Lemma bind_raises {A B} (m : M A) (f : A → M B) w :
  (∀ a w1, ∃ e, f a w1 = inl e) → ∃ e, bind m f w = inl e.
Proof.
  intros Hf. unfold bind. destruct (m w) as [e|[[a w1] l1]]; [by eexists|].
  destruct (Hf a w1) as [e ->]. by eexists.
Qed.

Lemma ertobs_step_empty_summary parent wdf folder acc obs w :
  type (config obs) = SUMMARY → as_summary (data obs) = inr [] →
  ertobs_step parent wdf folder acc obs w = inl ValueError.
Proof.
  intros Ht Hd. unfold ertobs_step. rewrite Ht. unfold bind, lift. by rewrite Hd.
Qed.

(** X3: a summary entry that holds no vector makes
    [write_dict_to_ertobs] raise, wherever in the list it stands; the
    exception is the [ValueError] of the empty concatenation whenever the
    entries before it can be written. *)
Theorem write_dict_to_ertobs_empty_summary (obs : Obs) (l1 l2 : list Obs)
    (parent : path) (w : World) :
  type (config obs) = SUMMARY → as_summary (data obs) = inr [] →
  (∃ e, write_dict_to_ertobs (l1 ++ obs :: l2) parent w = inl e)
  ∧ (∀ r, write_dict_to_ertobs l1 parent w = inr r →
          write_dict_to_ertobs (l1 ++ obs :: l2) parent w = inl ValueError).
Proof.
  intros Ht Hd. split.
  - unfold write_dict_to_ertobs.
    apply bind_raises. intros present w1.
    apply bind_raises. intros _ w2.
    apply bind_raises. intros _ w3.
    unfold fill_ertobs_dir.
    apply bind_raises. intros stamp w4.
    apply bind_raises. intros readme w5.
    apply bind_raises. intros _ w6.
    rewrite (bind_congr_l _ _ _ _ (foldM_app _ l1 (obs :: l2) _ _)), bind_assoc.
    apply bind_raises. intros acc w7. exists ValueError.
    apply bind_inl_l. cbn [foldM]. apply bind_inl_l.
    by apply ertobs_step_empty_summary.
  - intros [[s w'] log] Hrun. unfold write_dict_to_ertobs in *.
    apply bind_inr in Hrun as (present & w1 & la & lb & Hexists & Hrun & _).
    unfold bind at 1. rewrite Hexists.
    apply bind_inr in Hrun as (u1 & w2 & lc & ld & Hrm & Hrun & _).
    unfold bind at 1. rewrite Hrm.
    apply bind_inr in Hrun as (u2 & w3 & le & lf & Hmk & Hrun & _).
    unfold bind at 1. rewrite Hmk.
    unfold fill_ertobs_dir in *.
    apply bind_inr in Hrun as (stamp & w4 & lg & lh & Hst & Hrun & _).
    unfold bind at 1. rewrite Hst.
    apply bind_inr in Hrun as (readme & w5 & li & lj & Hrd & Hrun & _).
    unfold bind at 1. rewrite Hrd.
    apply bind_inr in Hrun as (u3 & w6 & lk & ll & Hwr & Hrun & _).
    unfold bind at 1. rewrite Hwr.
    apply bind_inr in Hrun as (acc & w7 & lm & ln & Hloop & _).
    unfold bind at 1. rewrite foldM_app. unfold bind at 1. rewrite Hloop.
    cbn [foldM]. unfold bind at 1. by rewrite ertobs_step_empty_summary.
Qed.
End timeseries.

(** ** The loop over the entries *)

Section entries.
Context `{Utilities} `{Host}.

Lemma add_time_stamp_eq text record_type w :
  add_time_stamp text record_type "--" w
  = inr (stamp_of record_type (clock w) +:+ text, w, []).
Proof.
  unfold stamp_of, add_time_stamp, bind, datetime_now, ret. cbn [clock].
  by rewrite !append_nil_r.
Qed.

Lemma write_genrft_str_eq parent zone w :
  ∃ msg,
    write_genrft_str (parent ++ ["rft"]) (parent ++ ["rft"; "well_date_restart.txt"])
      zone "gendata_rft" w
    = inr (genrft_block parent zone, {| fs := fs w; clock := clock w + 2 |}, [msg]).
Proof.
  unfold genrft_block, write_genrft_str, bind, sleep, warning, ret. cbn [fs clock].
  by eexists.
Qed.

Lemma genrft_block_nonempty parent zone : String.eqb (genrft_block parent zone) "" = false.
Proof.
  unfold genrft_block, write_genrft_str, bind, sleep, warning, ret. cbn [fs clock].
  unfold GENDATA_RFT_EXPLAINER. done.
Qed.

Lemma rft_wells_eq obs elements :
  as_rft (data obs) = inr elements → rft_wells obs = written_wells elements.
Proof. unfold rft_wells. by intros ->. Qed.

Lemma write_rft_ertobs_inr rft_dict well_date_file parent w out w' l :
  write_rft_ertobs rft_dict well_date_file parent w = inr (out, w', l) →
  out.2 = gen_lines rft_dict
  ∧ fs w' !! well_date_file = Some (File (to_csv (map well_date_row (rft_wells rft_dict))))
  ∧ clock w' = clock w ∧ l = [].
Proof.
  unfold write_rft_ertobs. intros Hrun.
  apply bind_inr in Hrun as (u & w1 & l1 & l2 & Hmk & Hrun & ->).
  apply bind_inr in Hrun as (elements & w2 & l3 & l4 & Hdata & Hrun & ->).
  apply bind_inr in Hrun as (acc & w3 & l5 & l6 & Hloop & Hrun & ->).
  apply bind_inr in Hrun as (u' & w4 & l7 & l8 & Hwrite & Hret & ->).
  injection Hret as <- <- <-.
  unfold lift in Hdata.
  destruct (as_rft (data rft_dict)) as [e|elements'] eqn:Has; [done|].
  injection Hdata as -> <- <-.
  apply mkdir_inr in Hmk as (-> & Hc1 & _).
  destruct (foldM_rft_step_inr _ _ _ _ _ _ _ _ _ Hloop)
    as (-> & Hc2 & Hwd & _ & Hgen & _ & _).
  apply write_text_inr in Hwrite as (-> & -> & _ & _).
  cbn [fs clock snd]. unfold gen_lines. rewrite (rft_wells_eq _ _ Has).
  split_and!.
  - by rewrite Hgen.
  - by rewrite lookup_insert_eq, Hwd.
  - congruence.
  - done.
Qed.

Lemma ertobs_step_inr_other parent wdf folder acc obs w acc' w' l :
  ¬ is_rft obs →
  ertobs_step parent wdf folder acc obs w = inr (acc', w', l) →
  w' = w ∧ gendata_rft_str acc' = gendata_rft_str acc ∧ gen_data acc' = gen_data acc.
Proof.
  unfold is_rft, ertobs_step. intros Hn. destruct (type (config obs)); [|done|].
  - unfold bind, lift.
    destruct (as_summary (data obs)) as [e|elements]; [done|].
    destruct (write_timeseries_ertobs elements) as [e|s]; [done|].
    by intros [= <- <- <-].
  - unfold bind, warning, ret. by intros [= <- <- <-].
Qed.

Lemma ertobs_step_inr_rft parent acc obs w acc' w' l :
  is_rft obs →
  ertobs_step parent (parent ++ ["rft"; "well_date_restart.txt"]) "gendata_rft" acc obs w
  = inr (acc', w', l) →
  let first := String.eqb (gendata_rft_str acc) "" in
  gendata_rft_str acc'
  = (if first then genrft_block parent (zonemap (config obs)) else gendata_rft_str acc)
  ∧ gen_data acc' = gen_data acc +:+ gen_lines obs
  ∧ clock w' = clock w + (if first then 2 else 0)
  ∧ fs w' !! (parent ++ ["rft"; "well_date_restart.txt"])
    = Some (File (to_csv (map well_date_row (rft_wells obs)))).
Proof.
  unfold is_rft, ertobs_step. intros ->. cbv zeta.
  intros (g & w1 & l1 & l2 & Hgen & Hrun & ->)%bind_inr.
  apply bind_inr in Hrun as (out & w2 & l3 & l4 & Hrft & Hret & ->).
  injection Hret as <- <- <-.
  apply write_rft_ertobs_inr in Hrft as (Hlines & Hfile & Hclock & ->).
  cbn [gendata_rft_str gen_data]. rewrite Hlines, Hclock.
  destruct (String.eqb (gendata_rft_str acc) "").
  - destruct (write_genrft_str_eq parent (zonemap (config obs)) w) as [msg Heq].
    rewrite Heq in Hgen. injection Hgen as <- <- <-. done.
  - injection Hgen as <- <- <-. by rewrite Nat.add_0_r.
Qed.

Lemma foldM_ertobs_step_inr parent obs_list acc w acc' w' l :
  foldM (ertobs_step parent (parent ++ ["rft"; "well_date_restart.txt"]) "gendata_rft")
    obs_list acc w = inr (acc', w', l) →
  let rfts := filter is_rft obs_list in
  let first := String.eqb (gendata_rft_str acc) "" in
  gen_data acc' = gen_data acc +:+ concat_strings (map gen_lines rfts)
  ∧ gendata_rft_str acc'
    = (if first
       then from_option (λ o, genrft_block parent (zonemap (config o))) "" (head rfts)
       else gendata_rft_str acc)
  ∧ clock w' = clock w + (if first then from_option (λ _, 2) 0 (head rfts) else 0)
  ∧ match last rfts with
    | Some o =>
        fs w' !! (parent ++ ["rft"; "well_date_restart.txt"])
        = Some (File (to_csv (map well_date_row (rft_wells o))))
    | None => fs w' = fs w
    end.
Proof.
  revert acc w l. induction obs_list as [|obs obs_list IH]; intros acc w l; cbn [foldM].
  - intros [= <- <- <-]. cbv zeta. cbn [filter list_filter map head last from_option].
    rewrite append_nil_r.
    destruct (String.eqb_spec (gendata_rft_str acc) "") as [Heq|Hne];
      rewrite Nat.add_0_r; done.
  - intros (a1 & w1 & l1 & l2 & Hstep & Hrest & ->)%bind_inr.
    apply IH in Hrest as (Hgen & Hblock & Hclock & Hlast). clear IH.
    cbv zeta. rewrite filter_cons. destruct (decide (is_rft obs)) as [Hr|Hn].
    + apply ertobs_step_inr_rft in Hstep as (Hb1 & Hg1 & Hc1 & Hf1); [|done].
      assert (Hnot : String.eqb (gendata_rft_str a1) "" = false).
      { rewrite Hb1. destruct (String.eqb (gendata_rft_str acc) "") eqn:Hfirst; [|done].
        apply genrft_block_nonempty. }
      rewrite Hnot in Hblock, Hclock. rewrite Nat.add_0_r in Hclock.
      cbn [map head from_option]. rewrite concat_strings_cons, last_cons.
      split_and!.
      * by rewrite Hgen, Hg1, append_assoc.
      * by rewrite Hblock, Hb1.
      * by rewrite Hclock, Hc1.
      * destruct (last (filter is_rft obs_list)) as [o|]; [done|]. by rewrite Hlast.
    + apply ertobs_step_inr_other in Hstep as (-> & Hb1 & Hg1); [|done].
      rewrite Hb1 in Hblock, Hclock. rewrite Hg1 in Hgen. done.
Qed.

(** Inside the destination directory the loop writes below [rft] only. *)
Lemma tidy_rft_write_rft_ertobs rft_dict parent n :
  tidy (parent ++ ["rft"]) (write_rft_ertobs rft_dict (parent ++ ["rft"; n]) parent).
Proof.
  unfold write_rft_ertobs, write_csv_with_comment.
  apply tidy_bind; [by apply tidy_mkdir|]. intros _.
  apply tidy_bind; [apply tidy_lift|]. intros elements.
  apply tidy_bind.
  { apply tidy_foldM. intros acc e. unfold rft_step.
    apply tidy_bind; [by apply tidy_write_well_rft_files|].
    intros [p|]; apply tidy_ret. }
  intros acc. apply tidy_bind; [|intros _; apply tidy_ret].
  apply tidy_write_text. exists [n]. by rewrite <- app_assoc.
Qed.

Lemma tidy_rft_ertobs_step parent folder acc obs :
  tidy (parent ++ ["rft"])
    (ertobs_step parent (parent ++ ["rft"; "well_date_restart.txt"]) folder acc obs).
Proof.
  unfold ertobs_step. destruct (type (config obs)).
  - apply tidy_bind; [apply tidy_lift|]. intros ?.
    apply tidy_bind; [apply tidy_lift|]. intros ?. apply tidy_ret.
  - apply tidy_bind.
    { destruct (String.eqb _ _); [apply tidy_write_genrft_str|apply tidy_ret]. }
    intros g. apply tidy_bind; [|intros ?; apply tidy_ret].
    apply tidy_rft_write_rft_ertobs.
  - apply tidy_bind; [apply tidy_warning|]. intros ?. apply tidy_ret.
Qed.

Lemma foldM_ertobs_step_outside_rft parent folder obs_list acc w acc' w' l q :
  foldM (ertobs_step parent (parent ++ ["rft"; "well_date_restart.txt"]) folder)
    obs_list acc w = inr (acc', w', l) →
  ¬ (parent ++ ["rft"]) `prefix_of` q → fs w' !! q = fs w !! q.
Proof.
  intros Hloop Hq.
  assert (Htidy : tidy (parent ++ ["rft"])
            (foldM (ertobs_step parent (parent ++ ["rft"; "well_date_restart.txt"]) folder)
               obs_list acc)).
  { apply tidy_foldM. intros. apply tidy_rft_ertobs_step. }
  by apply (Htidy _ _ _ _ Hloop).
Qed.
End entries.

(** ** What a call leaves in the destination directory *)

Section outcome.
Context `{Utilities} `{Host}.

Lemma finish_ertobs_dir_inr parent acc w s w' l :
  finish_ertobs_dir parent acc w = inr (s, w', l) →
  s = obs_str acc ∧ clock w' = clock w ∧ l = []
  ∧ fs w' =
      (if String.eqb (gen_data acc) ""
       then <[parent ++ ["ert_observations.obs"] := File s]> (fs w)
       else <[parent ++ ["gen_data_rft_wells.ert"] :=
                File (stamp_of "f" (clock w)
                      +:+ gendata_rft_str acc +:+ GENDATA_EXPLAINER +:+ gen_data acc)]>
              (<[parent ++ ["ert_observations.obs"] := File s]> (fs w))).
Proof.
  unfold finish_ertobs_dir. intros Hrun.
  apply bind_inr in Hrun as (u1 & w1 & l1 & l2 & Hert & Hrun & ->).
  apply bind_inr in Hrun as (u2 & w2 & l3 & l4 & Hgen & Hrun & ->).
  apply bind_inr in Hrun as (u3 & w3 & l5 & l6 & Hch & Hret & ->).
  injection Hret as <- <- <-.
  apply write_text_inr in Hert as (-> & -> & _ & _).
  unfold chmod in Hch. destruct (node_at (fs w2) parent); [|done].
  injection Hch as _ <- <-.
  destruct (String.eqb (gen_data acc) "").
  - by injection Hgen as _ <- <-.
  - apply bind_inr in Hgen as (st & w4 & l7 & l8 & Hst & Hwr & ->).
    rewrite add_time_stamp_eq in Hst. injection Hst as <- <- <-.
    apply write_text_inr in Hwr as (-> & -> & _ & _). done.
Qed.

Lemma write_dict_to_ertobs_inr obs_list parent w s w1 log :
  write_dict_to_ertobs obs_list parent w = inr (s, w1, log) →
  ∃ acc w2 l1 l2,
    foldM (ertobs_step parent (parent ++ ["rft"; "well_date_restart.txt"]) "gendata_rft")
      obs_list
      {| gendata_rft_str := ""; obs_str := stamp_of "f" (clock w); gen_data := "" |}
      {| fs := <[parent ++ ["readme.txt"] := File (stamp_of "d" (clock w))]>
                 (fresh_dir parent (fs w));
         clock := clock w |}
    = inr (acc, w2, l1)
    ∧ finish_ertobs_dir parent acc w2 = inr (s, w1, l2).
Proof.
  intros Hrun.
  assert (Hfill : ∃ log', fill_ertobs_dir obs_list parent
                    {| fs := fresh_dir parent (fs w); clock := clock w |}
                  = inr (s, w1, log')).
  { rewrite write_dict_to_ertobs_cases in Hrun. unfold fresh_dir.
    destruct (node_at (fs w) parent) as [[c|]|] eqn:Hp; [done| |].
    - unfold with_log in Hrun.
      destruct (make_and_fill obs_list parent _) as [e|[[s' w'] l']] eqn:Hmf; [done|].
      injection Hrun as -> -> _.
      apply bind_inr in Hmf as (u & wm & la & lb & Hmk & Hfill & _).
      apply mkdir_inr in Hmk as (_ & Hc & [(? & _)|(_ & _ & Hfs)]); [done|].
      exists lb. destruct wm as [fm cm]. cbn [fs clock] in *. by subst.
    - apply bind_inr in Hrun as (u & wm & la & lb & Hmk & Hfill & _).
      apply mkdir_inr in Hmk as (_ & Hc & [(? & _)|(_ & _ & Hfs)]); [done|].
      exists lb. destruct wm as [fm cm]. cbn [fs clock] in *. by subst. }
  destruct Hfill as [log' Hfill]. unfold fill_ertobs_dir in Hfill.
  apply bind_inr in Hfill as (stamp & wa & la & lb & Hst & Hfill & _).
  rewrite add_time_stamp_eq, append_nil_r in Hst.
  assert (stamp = stamp_of "f" (clock w)) as -> by (cbn [clock] in Hst; congruence).
  assert (wa = {| fs := fresh_dir parent (fs w); clock := clock w |}) as -> by congruence.
  clear Hst.
  apply bind_inr in Hfill as (readme & wb & lc & ld & Hrd & Hfill & _).
  rewrite add_time_stamp_eq, append_nil_r in Hrd.
  assert (readme = stamp_of "d" (clock w)) as -> by (cbn [clock] in Hrd; congruence).
  assert (wb = {| fs := fresh_dir parent (fs w); clock := clock w |}) as -> by congruence.
  clear Hrd.
  apply bind_inr in Hfill as (u & wc & le & lf & Hwr & Hfill & _).
  apply write_text_inr in Hwr as (-> & _ & _ & _).
  apply bind_inr in Hfill as (acc & w2 & lg & lh & Hloop & Hfin & _).
  by exists acc, w2, lg, lh.
Qed.

Lemma foldM_ertobs_step_obs_str parent wdf folder obs_list acc w acc' w' l :
  foldM (ertobs_step parent wdf folder) obs_list acc w = inr (acc', w', l) →
  ∃ rest, obs_str acc' = obs_str acc +:+ rest.
Proof.
  rewrite foldM_ertobs_step_split. unfold prepend_obs.
  destruct (foldM _ obs_list (set_obs_str "" acc) w) as [e|[[a wa] la]]; [done|].
  intros [= <- ? ?]. by exists (obs_str a).
Qed.

Lemma rft_not_above (parent : path) (x : string) :
  x ≠ "rft" → ¬ (parent ++ ["rft"]) `prefix_of` parent ++ [x].
Proof.
  intros Hx [k Hk]. rewrite <- app_assoc in Hk. apply app_inv_head in Hk.
  by injection Hk.
Qed.

Lemma rft_not_above_self (parent : path) : ¬ (parent ++ ["rft"]) `prefix_of` parent.
Proof.
  intros [k Hk]. apply (f_equal length) in Hk. rewrite !length_app in Hk.
  simpl in Hk. lia.
Qed.

Lemma append_eq_nil (a b : string) : a +:+ b = "" ↔ a = "" ∧ b = "".
Proof.
  destruct a as [|c a]; simpl.
  - split; [done|]. by intros [_ ->].
  - split; [done|]. by intros [? _].
Qed.

Lemma gen_lines_empty obs : gen_lines obs = "" ↔ rft_wells obs = [].
Proof.
  unfold gen_lines. destruct (rft_wells obs) as [|e wells]; [done|].
  rewrite map_cons, concat_strings_cons. split; [|done].
  intros [He _]%append_eq_nil. unfold create_rft_gendata_str in He. done.
Qed.

Lemma gen_lines_all_empty (rfts : list Obs) :
  concat_strings (map gen_lines rfts) = "" ↔ rfts ≫= rft_wells = [].
Proof.
  induction rfts as [|o rfts IH]; [done|].
  rewrite map_cons, concat_strings_cons, bind_cons, append_eq_nil, gen_lines_empty, IH.
  split.
  - by intros [-> ->].
  - by intros [? ?]%app_eq_nil.
Qed.

Lemma fresh_dir_below (parent q : path) (t : FS) :
  fs_wf t → parent `prefix_of` q → q ≠ parent → fresh_dir parent t !! q = None.
Proof.
  intros Hwf Hq Hne. unfold fresh_dir. rewrite lookup_insert_ne by done.
  destruct (node_at t parent) as [n|] eqn:Hp.
  - rewrite remove_tree_lookup. by rewrite decide_True.
  - by apply (absent_no_descendants t parent).
Qed.

(** The state after a call that returns, read off the two inversions. *)
Lemma write_dict_to_ertobs_outcome obs_list parent w s w1 log :
  write_dict_to_ertobs obs_list parent w = inr (s, w1, log) →
  let rfts := filter is_rft obs_list in
  let lines := concat_strings (map gen_lines rfts) in
  let filled :=
    <[parent ++ ["readme.txt"] := File (stamp_of "d" (clock w))]> (fresh_dir parent (fs w)) in
  ∃ t2,
    (∀ q, ¬ (parent ++ ["rft"]) `prefix_of` q → t2 !! q = filled !! q)
    ∧ match last rfts with
      | Some o =>
          t2 !! (parent ++ ["rft"; "well_date_restart.txt"])
          = Some (File (to_csv (map well_date_row (rft_wells o))))
      | None => t2 = filled
      end
    ∧ clock w1 = clock w + from_option (λ _, 2) 0 (head rfts)
    ∧ (∃ rest, s = stamp_of "f" (clock w) +:+ rest)
    ∧ fs w1 =
        (if String.eqb lines ""
         then <[parent ++ ["ert_observations.obs"] := File s]> t2
         else <[parent ++ ["gen_data_rft_wells.ert"] :=
                  File (stamp_of "f" (clock w1)
                        +:+ from_option (λ o, genrft_block parent (zonemap (config o))) ""
                              (head rfts)
                        +:+ GENDATA_EXPLAINER +:+ lines)]>
                (<[parent ++ ["ert_observations.obs"] := File s]> t2)).
Proof.
  intros Hrun rfts lines filled.
  apply write_dict_to_ertobs_inr in Hrun as (acc & w2 & l1 & l2 & Hloop & Hfin).
  destruct (foldM_ertobs_step_obs_str _ _ _ _ _ _ _ _ _ Hloop) as [rest Hrest].
  pose proof (λ q, foldM_ertobs_step_outside_rft _ _ _ _ _ _ _ _ q Hloop) as Hout.
  apply foldM_ertobs_step_inr in Hloop as (Hgen & Hblock & Hclock & Hlast).
  cbn [gen_data gendata_rft_str obs_str fs clock String.eqb] in *.
  apply finish_ertobs_dir_inr in Hfin as (-> & Hc & _ & Hfs).
  exists (fs w2). split_and!.
  - intros q Hq. by apply Hout.
  - exact Hlast.
  - by rewrite Hc.
  - by exists rest.
  - rewrite Hfs, Hgen, Hblock, Hc. done.
Qed.

(** X4: after a call of [write_dict_to_ertobs] that returns, the
    destination is a directory, [ert_observations.obs] in it holds exactly
    the returned string, [readme.txt] holds the time stamp for a folder and
    nothing else, and the returned string opens with the time stamp for a
    file, both stamps taken at the time of the call. *)
Theorem write_dict_to_ertobs_files (obs_list : list Obs) (parent : path) (w : World)
    s w1 log :
  write_dict_to_ertobs obs_list parent w = inr (s, w1, log) →
  fs w1 !! parent = Some Dir
  ∧ fs w1 !! (parent ++ ["ert_observations.obs"]) = Some (File s)
  ∧ fs w1 !! (parent ++ ["readme.txt"]) = Some (File (stamp_of "d" (clock w)))
  ∧ ∃ rest, s = stamp_of "f" (clock w) +:+ rest.
Proof.
  intros Hrun.
  destruct (write_dict_to_ertobs_outcome _ _ _ _ _ _ Hrun)
    as (t2 & Hout & _ & _ & Hs & Hfs).
  assert (Hdir : t2 !! parent = Some Dir).
  { rewrite Hout by apply rft_not_above_self.
    rewrite lookup_insert_ne by path_ne. unfold fresh_dir. apply lookup_insert_eq. }
  assert (Hreadme : t2 !! (parent ++ ["readme.txt"]) = Some (File (stamp_of "d" (clock w)))).
  { rewrite Hout by (by apply rft_not_above). apply lookup_insert_eq. }
  split_and!; [| | |exact Hs]; rewrite Hfs; destruct (String.eqb _ _).
  - by rewrite lookup_insert_ne by path_ne.
  - by rewrite !lookup_insert_ne by path_ne.
  - apply lookup_insert_eq.
  - rewrite lookup_insert_ne by path_ne. apply lookup_insert_eq.
  - by rewrite lookup_insert_ne by path_ne.
  - by rewrite !lookup_insert_ne by path_ne.
Qed.

(** X5: [gen_data_rft_wells.ert] is written exactly when some well of
    some RFT entry has an active row.  Then it holds a time stamp taken after
    the two seconds of [write_genrft_str], the [GENDATA_RFT] block made with
    the zone map of the first RFT entry, the [GEN_DATA] explainer, and the
    [GEN_DATA] lines of all RFT entries in order; otherwise the destination
    has no such file, also when RFT entries are present. *)
Theorem write_dict_to_ertobs_gen_data_file (obs_list : list Obs) (parent : path)
    (w : World) s w1 log :
  fs_wf (fs w) →
  write_dict_to_ertobs obs_list parent w = inr (s, w1, log) →
  let rfts := filter is_rft obs_list in
  match rfts ≫= rft_wells with
  | [] => fs w1 !! (parent ++ ["gen_data_rft_wells.ert"]) = None
  | _ :: _ =>
      ∃ o, head rfts = Some o
        ∧ fs w1 !! (parent ++ ["gen_data_rft_wells.ert"])
          = Some (File (stamp_of "f" (clock w + 2)
                        +:+ genrft_block parent (zonemap (config o))
                        +:+ GENDATA_EXPLAINER
                        +:+ concat_strings (map gen_lines rfts)))
  end.
Proof.
  intros Hwf Hrun rfts.
  destruct (write_dict_to_ertobs_outcome _ _ _ _ _ _ Hrun)
    as (t2 & Hout & _ & Hclock & _ & Hfs).
  fold rfts in Hout, Hclock, Hfs.
  pose proof (gen_lines_all_empty rfts) as Hempty.
  destruct (rfts ≫= rft_wells) as [|e wells] eqn:Hwells.
  - rewrite (proj2 Hempty eq_refl) in Hfs. cbn [String.eqb] in Hfs.
    rewrite Hfs, lookup_insert_ne by path_ne.
    rewrite Hout by (by apply rft_not_above).
    rewrite lookup_insert_ne by path_ne.
    apply fresh_dir_below; [done|apply prefix_of_app_r|path_ne].
  - destruct (String.eqb_spec (concat_strings (map gen_lines rfts)) "") as [Heq|Hne].
    { by apply Hempty in Heq. }
    destruct rfts as [|o rfts']; [done|]. exists o. split; [done|].
    cbn [head from_option] in *. rewrite Hfs, Hclock. apply lookup_insert_eq.
Qed.

(** X6: a call of [write_dict_to_ertobs] that returns has slept two
    seconds when the list has an RFT entry, however many there are, and not
    at all otherwise: [write_genrft_str] runs for the first RFT entry
    only. *)
Theorem write_dict_to_ertobs_sleeps_once (obs_list : list Obs) (parent : path)
    (w : World) s w1 log :
  write_dict_to_ertobs obs_list parent w = inr (s, w1, log) →
  clock w1 = clock w + match filter is_rft obs_list with [] => 0 | _ :: _ => 2 end.
Proof.
  intros Hrun.
  destruct (write_dict_to_ertobs_outcome _ _ _ _ _ _ Hrun) as (t2 & _ & _ & Hclock & _).
  rewrite Hclock. by destruct (filter is_rft obs_list).
Qed.

(** X7: every RFT entry writes the same [rft/well_date_restart.txt], so
    after a call that returns the file lists the wells of the last RFT entry
    only, namely its wells with an active row. *)
Theorem write_dict_to_ertobs_well_date_file (obs_list : list Obs) (parent : path)
    (w : World) s w1 log (o : Obs) :
  write_dict_to_ertobs obs_list parent w = inr (s, w1, log) →
  last (filter is_rft obs_list) = Some o →
  fs w1 !! (parent ++ ["rft"; "well_date_restart.txt"])
  = Some (File (to_csv (map well_date_row (rft_wells o)))).
Proof.
  intros Hrun Hlast.
  destruct (write_dict_to_ertobs_outcome _ _ _ _ _ _ Hrun) as (t2 & _ & Hwdf & _ & _ & Hfs).
  rewrite Hlast in Hwdf. rewrite Hfs.
  assert (Hne : ∀ x, parent ++ [x] ≠ parent ++ ["rft"; "well_date_restart.txt"]).
  { intros x Heq. by apply app_inv_head in Heq. }
  destruct (String.eqb _ _); by rewrite !lookup_insert_ne by apply Hne.
Qed.

(** X8: without an RFT entry a call that returns leaves in the new
    destination directory [readme.txt] and [ert_observations.obs] and
    nothing else, changes nothing outside beyond removing what the
    destination held, and takes no time. *)
Theorem write_dict_to_ertobs_without_rft (obs_list : list Obs) (parent : path)
    (w : World) s w1 log :
  write_dict_to_ertobs obs_list parent w = inr (s, w1, log) →
  filter is_rft obs_list = [] →
  clock w1 = clock w
  ∧ fs w1 = <[parent ++ ["ert_observations.obs"] := File s]>
              (<[parent ++ ["readme.txt"] := File (stamp_of "d" (clock w))]>
                 (fresh_dir parent (fs w))).
Proof.
  intros Hrun Hnone.
  destruct (write_dict_to_ertobs_outcome _ _ _ _ _ _ Hrun)
    as (t2 & _ & Hlast & Hclock & _ & Hfs).
  rewrite Hnone in Hlast, Hclock, Hfs. cbn in Hlast, Hclock, Hfs.
  rewrite Hfs, Hlast. split; [lia|done].
Qed.
End outcome.

(** ** The path of the well and time file in the [GENDATA_RFT] block *)

Lemma join_snoc (sep : string) (p : path) (x : string) :
  join sep (p ++ [x]) = match p with [] => x | _ => join sep p +:+ sep +:+ x end.
Proof.
  induction p as [|a [|b p] IH]; [done|done|].
  change (join sep ((a :: b :: p) ++ [x]))
    with (a +:+ sep +:+ join sep ((b :: p) ++ [x])).
  rewrite IH.
  change (join sep (a :: b :: p)) with (a +:+ sep +:+ join sep (b :: p)).
  by rewrite !append_assoc.
Qed.

Lemma path_str_snoc_snoc (p : path) (x y : string) :
  path_str ((p ++ [x]) ++ [y]) = path_str (p ++ [x]) +:+ "/" +:+ y.
Proof.
  unfold path_str. rewrite (join_snoc "/" (p ++ [x]) y).
  destruct (p ++ [x]) as [|a q] eqn:Hp.
  - by destruct p.
  - by rewrite !append_assoc.
Qed.

Lemma path_str_snoc_ends (p : path) (x : string) :
  ∃ front, path_str (p ++ [x]) = front +:+ "/" +:+ x.
Proof.
  unfold path_str. rewrite join_snoc. destruct p as [|a p].
  - by exists "".
  - exists ("/" +:+ join "/" (a :: p)). by rewrite !append_assoc.
Qed.

Lemma prefix_append (a b : string) : String.prefix a (a +:+ b) = true.
Proof.
  induction a as [|c a IH]; [by destruct b|]. cbn [String.append String.prefix].
  destruct (ascii_dec c c); [exact IH|congruence].
Qed.

Lemma remove_go_skip (old a b : string) :
  remove_go old (a +:+ b) (String.length a) = remove_go old b 0.
Proof. induction a as [|c a IH]; [done|]. exact IH. Qed.

Lemma prefix_contains (x y s : string) :
  String.prefix (x +:+ y) s = true → contains y s = true.
Proof.
  revert s. induction x as [|c x IH]; intros s.
  - cbn [String.append]. intros Hp. destruct s; cbn [contains]; by rewrite Hp.
  - destruct s as [|c' s]; [done|]. cbn [String.append String.prefix contains].
    destruct (ascii_dec c c'); [|done]. intros Hp%IH. rewrite Hp. apply orb_true_r.
Qed.

Lemma remove_go_absent (x y s : string) :
  contains y s = false → remove_go (x +:+ y) s 0 = s.
Proof.
  induction s as [|c s IH]; [done|]. intros Hc.
  assert (Hp : String.prefix (x +:+ y) (String c s) = false).
  { destruct (String.prefix (x +:+ y) (String c s)) eqn:Hp; [|done].
    apply prefix_contains in Hp. congruence. }
  cbn [remove_go]. rewrite Hp. f_equal. apply IH.
  cbn [contains] in Hc. by apply orb_false_elim in Hc as [_ Hc].
Qed.

Lemma str_remove_parent (parent : path) :
  str_remove (path_str (parent ++ ["rft"]))
    (path_str (parent ++ ["rft"; "well_date_restart.txt"]))
  = "/well_date_restart.txt".
Proof.
  replace (parent ++ ["rft"; "well_date_restart.txt"])
    with ((parent ++ ["rft"]) ++ ["well_date_restart.txt"]) by by rewrite <- app_assoc.
  rewrite path_str_snoc_snoc.
  destruct (path_str_snoc_ends parent "rft") as [front Hfront].
  destruct (path_str (parent ++ ["rft"])) as [|c old] eqn:Hold.
  { by destruct front. }
  unfold str_remove. cbn [String.append remove_go].
  change (String c (old +:+ "/well_date_restart.txt"))
    with (String c old +:+ "/well_date_restart.txt").
  rewrite prefix_append. cbn [String.length]. replace (S (String.length old) - 1) with (String.length old) by lia. rewrite remove_go_skip.
  rewrite Hfront. by apply remove_go_absent.
Qed.

Section further_properties.
Context `{Utilities} `{Host}.

(** X10: for the folder and the file [write_dict_to_ertobs] passes,
    whatever the destination, [write_genrft_str] names the well and time
    file as [<RFT_INPUT>//well_date_restart.txt]: what is left of the file
    path once the folder path is deleted from it still starts with a slash,
    and one slash is already written before it.  The call sleeps two
    seconds, logs one warning and leaves the file tree alone. *)
Theorem write_genrft_str_double_slash (parent : path) (layer_zone_table outfolder_name : string)
    (w : World) :
  ∃ msg,
    write_genrft_str (parent ++ ["rft"]) (parent ++ ["rft"; "well_date_restart.txt"])
      layer_zone_table outfolder_name w
    = inr (GENDATA_RFT_EXPLAINER
           +:+ ("DEFINE <RFT_INPUT> " +:+ path_str (parent ++ ["rft"]) +:+ NL)
           +:+ ("FORWARD_MODEL MAKE_DIRECTORY(<DIRECTORY>=" +:+ outfolder_name +:+ ")" +:+ NL)
           +:+ "FORWARD_MODEL GENDATA_RFT(<PATH_TO_TRAJECTORY_FILES>=<RFT_INPUT>,"
           +:+ "<WELL_AND_TIME_FILE>=<RFT_INPUT>//well_date_restart.txt,"
           +:+ ("<ZONEMAP>=" +:+ layer_zone_table +:+ ",")
           +:+ (" <OUTPUTDIRECTORY>=" +:+ outfolder_name +:+ ")" +:+ NL +:+ NL),
           {| fs := fs w; clock := clock w + 2 |}, [msg]).
Proof.
  unfold write_genrft_str, bind, sleep, warning, ret. cbn [fs clock].
  rewrite str_remove_parent. by eexists.
Qed.

End further_properties.

(** ** When a call returns *)

Lemma node_at_keeps_dir (t t' : FS) (p : path) :
  (∀ q, t !! q = Some Dir → t' !! q = Some Dir) →
  node_at t p = Some Dir → node_at t' p = Some Dir.
Proof. intros Hkeep. destruct p; [done|]. apply Hkeep. Qed.

Lemma dirname_not_below (p : path) : p ≠ [] → ¬ p `prefix_of` dirname p.
Proof.
  destruct p as [|x p _] using rev_ind; [done|]. intros _.
  rewrite dirname_snoc. intros [k Hk]. apply (f_equal length) in Hk.
  rewrite !length_app in Hk. simpl in Hk. lia.
Qed.

Lemma node_at_remove_tree_None (p : path) (t : FS) :
  p ≠ [] → node_at (remove_tree p t) p = None.
Proof.
  intros Hne. destruct p as [|x p]; [done|]. cbn [node_at].
  rewrite remove_tree_lookup. by rewrite decide_True.
Qed.

Lemma node_at_remove_tree_outside (p q : path) (t : FS) :
  ¬ p `prefix_of` q → node_at (remove_tree p t) q = node_at t q.
Proof.
  intros Hq. destruct q as [|x q]; [done|]. cbn [node_at].
  rewrite remove_tree_lookup. by rewrite decide_False.
Qed.

Section returns.
Context `{Utilities} `{Host}.

Lemma write_rft_ertobs_ok rft_dict parent n w elements :
  as_rft (data rft_dict) = inr elements →
  rft_ready parent (fs w) →
  ∃ out w', write_rft_ertobs rft_dict (parent ++ ["rft"; n]) parent w = inr (out, w', [])
            ∧ rft_ready parent (fs w').
Proof.
  intros Hdata (Hp & Hnf & Hflat).
  destruct (mkdir_exist_ok_flat parent w Hp Hnf Hflat) as (w1 & Hmk & Hflat1).
  destruct (foldM_rft_step_ok (parent ++ ["rft"]) (subtype_name (config rft_dict))
              "gendata_rft" elements
              {| well_date_list := []; rft_ertobs_str := ""; rft_gen_data := "" |}
              w1 Hflat1) as (acc & w2 & Hloop & Hflat2).
  assert (Hrun : ∃ out w',
             write_rft_ertobs rft_dict (parent ++ ["rft"; n]) parent w = inr (out, w', [])
             ∧ flat_dir (fs w') (parent ++ ["rft"])).
  { unfold write_rft_ertobs, bind, lift, write_csv_with_comment.
    rewrite Hmk, Hdata, Hloop.
    replace (parent ++ ["rft"; n]) with ((parent ++ ["rft"]) ++ [n])
      by by rewrite <- app_assoc.
    destruct Hflat2 as [Hd Hchild].
    rewrite write_text_ok; [|by rewrite dirname_snoc|rewrite node_at_snoc; apply Hchild].
    eexists _, _. split; [done|]. cbn [fs]. by apply flat_dir_insert_file. }
  destruct Hrun as (out & w' & Hrun & [Hd Hchild]).
  exists out, w'. split; [done|]. split_and!.
  - destruct (tidy_rft_write_rft_ertobs rft_dict parent n _ _ _ _ Hrun) as [_ Hkeep].
    by apply (node_at_keeps_dir (fs w)).
  - intros c. by rewrite Hd.
  - exact Hchild.
Qed.

Lemma ertobs_step_ok parent acc obs w :
  writable_entry obs → rft_ready parent (fs w) →
  ∃ acc' w' l,
    ertobs_step parent (parent ++ ["rft"; "well_date_restart.txt"]) "gendata_rft" acc obs w
    = inr (acc', w', l)
    ∧ rft_ready parent (fs w').
Proof.
  unfold writable_entry, ertobs_step. intros Hok Hready.
  destruct (type (config obs)).
  - destruct Hok as (elements & Hdata & Hne). unfold bind, lift. rewrite Hdata.
    unfold write_timeseries_ertobs. destruct elements as [|e elements]; [done|].
    cbn [map]. by eexists _, _, _.
  - destruct Hok as (elements & Hdata).
    assert (Hblock : ∃ g c l,
               (if String.eqb (gendata_rft_str acc) ""
                then write_genrft_str (parent ++ ["rft"])
                       (parent ++ ["rft"; "well_date_restart.txt"])
                       (zonemap (config obs)) "gendata_rft"
                else ret (gendata_rft_str acc)) w
               = inr (g, {| fs := fs w; clock := c |}, l)).
    { destruct (String.eqb _ _).
      - destruct (write_genrft_str_eq parent (zonemap (config obs)) w) as [msg ->].
        by eexists _, _, _.
      - destruct w. by eexists _, _, _. }
    destruct Hblock as (g & c & l & Hblock).
    destruct (write_rft_ertobs_ok obs parent "well_date_restart.txt"
                {| fs := fs w; clock := c |} elements Hdata Hready)
      as (out & w' & Hrun & Hready').
    unfold bind. rewrite Hblock, Hrun. by eexists _, _, _.
  - unfold bind, warning, ret. by eexists _, _, _.
Qed.

Lemma foldM_ertobs_step_ok parent obs_list acc w :
  Forall writable_entry obs_list → rft_ready parent (fs w) →
  ∃ acc' w' l,
    foldM (ertobs_step parent (parent ++ ["rft"; "well_date_restart.txt"]) "gendata_rft")
      obs_list acc w = inr (acc', w', l)
    ∧ rft_ready parent (fs w').
Proof.
  intros Hall. revert acc w.
  induction Hall as [|obs obs_list Hobs _ IH]; intros acc w Hready; cbn [foldM].
  - by eexists _, _, _.
  - destruct (ertobs_step_ok parent acc obs w Hobs Hready) as (acc1 & w1 & l1 & Hstep & Hr1).
    destruct (IH acc1 w1 Hr1) as (acc' & w' & l' & Hrest & Hr').
    unfold bind. rewrite Hstep, Hrest. by eexists _, _, _.
Qed.

Lemma ertobs_step_writable parent wdf folder acc obs w r :
  ertobs_step parent wdf folder acc obs w = inr r → writable_entry obs.
Proof.
  unfold writable_entry, ertobs_step. destruct (type (config obs)); [| |done].
  - unfold bind, lift. destruct (as_summary (data obs)) as [e|elements]; [done|].
    destruct elements as [|e elements]; [done|]. intros _. by eexists.
  - destruct r as [[acc' w'] l].
    intros (g & w1 & l1 & l2 & _ & Hrun & _)%bind_inr.
    apply bind_inr in Hrun as (out & w2 & l3 & l4 & Hrun & _).
    unfold write_rft_ertobs in Hrun.
    apply bind_inr in Hrun as (u & w3 & l5 & l6 & _ & Hrun & _).
    apply bind_inr in Hrun as (elements & w4 & l7 & l8 & Hdata & _).
    unfold lift in Hdata. destruct (as_rft (data obs)) as [e|els]; [done|]. by eexists.
Qed.

Lemma foldM_ertobs_step_writable parent wdf folder obs_list acc w r :
  foldM (ertobs_step parent wdf folder) obs_list acc w = inr r →
  Forall writable_entry obs_list.
Proof.
  revert acc w r. induction obs_list as [|obs obs_list IH]; intros acc w r; [done|].
  cbn [foldM]. destruct r as [[acc' w'] l].
  intros (acc1 & w1 & l1 & l2 & Hstep & Hrest & _)%bind_inr.
  constructor; [by eapply ertobs_step_writable|by eapply IH].
Qed.

Lemma make_and_fill_ok obs_list parent w :
  node_at (fs w) parent = None →
  node_at (fs w) (dirname parent) = Some Dir →
  (∀ q, parent `prefix_of` q → fs w !! q = None) →
  Forall writable_entry obs_list →
  ∃ s w1 log, make_and_fill obs_list parent w = inr (s, w1, log).
Proof.
  intros Hnone Hholder Hbelow Hall.
  unfold make_and_fill, bind at 1, mkdir. rewrite Hnone, Hholder.
  unfold fill_ertobs_dir. unfold bind at 1. rewrite add_time_stamp_eq.
  unfold bind at 1. rewrite add_time_stamp_eq. cbn [fs clock].
  set (t0 := <[parent := Dir]> (fs w)).
  assert (Hparent : node_at t0 parent = Some Dir).
  { destruct parent; [done|]. apply lookup_insert_eq. }
  assert (Hchild : ∀ x, t0 !! (parent ++ [x]) = None).
  { intros x. unfold t0. rewrite lookup_insert_ne by path_ne.
    apply Hbelow, prefix_of_app_r. }
  unfold bind at 1.
  rewrite write_text_ok; cbn [fs clock];
    [|by rewrite dirname_snoc|by rewrite node_at_snoc, Hchild].
  set (t1 := <[parent ++ ["readme.txt"] := _]> t0).
  assert (Hready : rft_ready parent t1).
  { split_and!.
    - unfold t1. by rewrite node_at_insert_ne by path_ne.
    - intros c. unfold t1. rewrite node_at_snoc, lookup_insert_ne, Hchild; [done|].
      intros Heq. by apply app_inv_head in Heq.
    - intros x. unfold t1, t0. rewrite <- app_assoc.
      rewrite !lookup_insert_ne, Hbelow; [done|apply prefix_of_app_r| |].
      + intros Heq. apply (f_equal length) in Heq. rewrite length_app in Heq.
        simpl in Heq. lia.
      + intros Heq. by apply app_inv_head in Heq. }
  destruct (foldM_ertobs_step_ok parent obs_list
              {| gendata_rft_str := ""; obs_str := stamp_of "f" (clock w) +:+ "";
                 gen_data := "" |}
              {| fs := t1; clock := clock w |} Hall Hready)
    as (acc & w2 & l2 & Hloop & (Hp2 & _)).
  pose proof (λ q, foldM_ertobs_step_outside_rft _ _ _ _ _ _ _ _ q Hloop) as Hout.
  cbn [fs] in Hout.
  unfold bind at 1. rewrite Hloop.
  unfold finish_ertobs_dir, bind at 1.
  rewrite write_text_ok; cbn [fs clock]; [|by rewrite dirname_snoc|].
  2:{ rewrite node_at_snoc, Hout by (by apply rft_not_above).
      unfold t1. by rewrite lookup_insert_ne, Hchild by path_ne. }
  assert (Hchmod : ∀ t c,
             node_at t parent = Some Dir →
             bind (chmod parent 508) (λ _, ret (obs_str acc)) {| fs := t; clock := c |}
             = inr (obs_str acc, {| fs := t; clock := c |}, [])).
  { intros t c Ht. unfold bind, chmod, ret. cbn [fs]. by rewrite Ht. }
  destruct (String.eqb (gen_data acc) "").
  - rewrite bind_ret_l, Hchmod.
    + by eexists _, _, _.
    + by rewrite node_at_insert_ne by path_ne.
  - rewrite bind_assoc. unfold bind at 1. rewrite add_time_stamp_eq. cbn [fs clock].
    unfold bind at 1. rewrite write_text_ok; cbn [fs clock].
    + rewrite Hchmod; [by eexists _, _, _|].
      by rewrite !node_at_insert_ne by path_ne.
    + rewrite dirname_snoc. by rewrite node_at_insert_ne by path_ne.
    + rewrite node_at_snoc, lookup_insert_ne by path_ne.
      rewrite Hout by (by apply rft_not_above).
      unfold t1. by rewrite lookup_insert_ne, Hchild by path_ne.
Qed.

(** X11: in a file tree where every entry sits in a directory,
    [write_dict_to_ertobs] returns exactly when the destination is not the
    root and is not a file, the directory that is to hold it exists, the
    data of every summary and RFT entry has the layout of its type, and
    every summary entry holds at least one vector. *)
Theorem write_dict_to_ertobs_returns_iff (obs_list : list Obs) (parent : path) (w : World) :
  fs_wf (fs w) →
  (∃ s w1 log, write_dict_to_ertobs obs_list parent w = inr (s, w1, log))
  ↔ parent ≠ []
    ∧ node_at (fs w) (dirname parent) = Some Dir
    ∧ (∀ c, node_at (fs w) parent ≠ Some (File c))
    ∧ Forall writable_entry obs_list.
Proof.
  intros Hwf. split.
  - intros (s & w1 & log & Hrun).
    assert (Hall : Forall writable_entry obs_list).
    { apply write_dict_to_ertobs_inr in Hrun as (acc & w2 & l1 & l2 & Hloop & _).
      by eapply foldM_ertobs_step_writable. }
    rewrite write_dict_to_ertobs_cases in Hrun.
    assert (Hmk : ∀ w0 r, make_and_fill obs_list parent w0 = inr r →
                    parent ≠ [] ∧ node_at (fs w0) (dirname parent) = Some Dir).
    { intros w0 [[s0 w0'] l0] (u & wm & la & lb & Hmk & _)%bind_inr.
      apply mkdir_inr in Hmk as (_ & _ & [(? & _)|(Hnone & Hholder & _)]); [done|].
      split; [|done]. by intros ->. }
    destruct (node_at (fs w) parent) as [[c|]|] eqn:Hp; [done| |].
    + unfold with_log in Hrun.
      destruct (make_and_fill obs_list parent _) as [e|[[s' w'] l']] eqn:Hfill; [done|].
      apply Hmk in Hfill as [Hne Hholder]. cbn [fs] in Hholder.
      rewrite node_at_remove_tree_outside in Hholder by by apply dirname_not_below.
      by split_and!.
    + apply Hmk in Hrun as [Hne Hholder]. by split_and!.
  - intros (Hne & Hholder & Hnf & Hall).
    rewrite write_dict_to_ertobs_cases.
    destruct (node_at (fs w) parent) as [[c|]|] eqn:Hp.
    + by destruct (Hnf c).
    + destruct (make_and_fill_ok obs_list parent
                  {| fs := remove_tree parent (fs w); clock := clock w |})
        as (s & w1 & log & ->); cbn [fs].
      * by apply node_at_remove_tree_None.
      * by rewrite node_at_remove_tree_outside by by apply dirname_not_below.
      * intros q Hq. rewrite remove_tree_lookup. by rewrite decide_True.
      * done.
      * unfold with_log. by eexists _, _, _.
    + apply make_and_fill_ok; try done. by apply absent_no_descendants.
Qed.
End returns.

(** ** The returned string, entry by entry *)

Section blocks.
Context `{Utilities} `{Host}.

Lemma write_rft_ertobs_inr_lines rft_dict well_date_file parent w out w' l :
  write_rft_ertobs rft_dict well_date_file parent w = inr (out, w', l) →
  out.1 = rft_lines parent rft_dict.
Proof.
  unfold write_rft_ertobs. intros Hrun.
  apply bind_inr in Hrun as (u & w1 & l1 & l2 & Hmk & Hrun & ->).
  apply bind_inr in Hrun as (elements & w2 & l3 & l4 & Hdata & Hrun & ->).
  apply bind_inr in Hrun as (acc & w3 & l5 & l6 & Hloop & Hrun & ->).
  apply bind_inr in Hrun as (u' & w4 & l7 & l8 & Hwrite & Hret & ->).
  injection Hret as <- <- <-.
  unfold lift in Hdata.
  destruct (as_rft (data rft_dict)) as [e|elements'] eqn:Has; [done|].
  injection Hdata as -> <- <-.
  destruct (foldM_rft_step_inr _ _ _ _ _ _ _ _ _ Hloop) as (_ & _ & _ & Hobs & _).
  cbn [fst]. unfold rft_lines. by rewrite (rft_wells_eq _ _ Has), Hobs.
Qed.

Lemma ertobs_step_obs_str parent wdf folder acc obs w acc' w' l :
  ertobs_step parent wdf folder acc obs w = inr (acc', w', l) →
  obs_str acc' = obs_str acc +:+ entry_text parent obs.
Proof.
  unfold ertobs_step, entry_text, entry_header. destruct (type (config obs)).
  - unfold bind, lift, summary_lines.
    destruct (as_summary (data obs)) as [e|elements]; [done|].
    destruct (write_timeseries_ertobs elements) as [e|s]; [done|].
    intros [= <- <- <-]. cbn [obs_str]. by rewrite append_assoc.
  - intros (g & w1 & l1 & l2 & _ & Hrun & ->)%bind_inr.
    apply bind_inr in Hrun as (out & w2 & l3 & l4 & Hrft & Hret & ->).
    injection Hret as <- <- <-. cbn [obs_str].
    by rewrite (write_rft_ertobs_inr_lines _ _ _ _ _ _ _ Hrft), append_assoc.
  - unfold bind, warning, ret. intros [= <- <- <-]. cbn [obs_str].
    by rewrite append_nil_r.
Qed.

Lemma foldM_ertobs_step_blocks parent wdf folder obs_list acc w acc' w' l :
  foldM (ertobs_step parent wdf folder) obs_list acc w = inr (acc', w', l) →
  obs_str acc' = obs_str acc +:+ concat_strings (map (entry_text parent) obs_list).
Proof.
  revert acc w l. induction obs_list as [|obs obs_list IH]; intros acc w l; cbn [foldM].
  - intros [= <- <- <-]. by rewrite append_nil_r.
  - intros (acc1 & w1 & l1 & l2 & Hstep & Hrest & ->)%bind_inr.
    rewrite (IH _ _ _ Hrest), (ertobs_step_obs_str _ _ _ _ _ _ _ _ _ Hstep).
    by rewrite map_cons, concat_strings_cons, append_assoc.
Qed.

(** X13: the string [write_dict_to_ertobs] returns is the time stamp
    followed, entry by entry and in the order of the list, by the comment
    header of the entry and its lines: the summary observations of a summary
    entry, one [GENERAL_OBSERVATION] line for every well with an active row
    of an RFT entry, and nothing for an entry of another type. *)
Theorem write_dict_to_ertobs_returns_blocks (obs_list : list Obs) (parent : path)
    (w : World) s w1 log :
  write_dict_to_ertobs obs_list parent w = inr (s, w1, log) →
  s = stamp_of "f" (clock w) +:+ concat_strings (map (entry_text parent) obs_list).
Proof.
  intros Hrun.
  apply write_dict_to_ertobs_inr in Hrun as (acc & w2 & l1 & l2 & Hloop & Hfin).
  apply finish_ertobs_dir_inr in Hfin as (-> & _).
  by rewrite (foldM_ertobs_step_blocks _ _ _ _ _ _ _ _ _ Hloop).
Qed.
End blocks.

(** ** Two wells with one file name *)

Lemma append_inv_head (a s t : string) : a +:+ s = a +:+ t → s = t.
Proof. induction a as [|c a IH]; [done|]. intros [= Heq]. by apply IH. Qed.

Lemma append_inv_tail (s t x : string) : s +:+ x = t +:+ x → s = t.
Proof.
  revert t. induction s as [|c s IH]; intros [|d t] Heq; cbn [String.append] in Heq.
  - done.
  - apply (f_equal String.length) in Heq. cbn [String.length] in Heq.
    rewrite length_append in Heq. lia.
  - apply (f_equal String.length) in Heq. cbn [String.length] in Heq.
    rewrite length_append in Heq. lia.
  - injection Heq as -> Heq. f_equal. by apply IH.
Qed.

Lemma last_cons_alt {A} (x : A) (l : list A) :
  last (x :: l) = match last l with Some y => Some y | None => Some x end.
Proof.
  destruct l as [|y l]; [done|]. rewrite last_cons_cons.
  by destruct (last (y :: l)) eqn:Hl; [|apply last_None in Hl].
Qed.

Section same_name.
Context `{Utilities}.

Lemma obs_file_of_inj folder prefix e e' :
  obs_file_of folder prefix e' = obs_file_of folder prefix e ↔ same_file_name e e'.
Proof.
  unfold obs_file_of, same_file_name. split; [|by intros ->].
  intros Heq%app_inv_head. injection Heq as Heq.
  apply append_inv_head in Heq. injection Heq as Heq. by apply append_inv_tail in Heq.
Qed.

Lemma position_file_of_inj folder e e' :
  position_file_of folder e' = position_file_of folder e ↔ same_file_name e e'.
Proof.
  unfold position_file_of, same_file_name. split; [|by intros ->].
  intros Heq%app_inv_head. injection Heq as Heq. by apply append_inv_tail in Heq.
Qed.

Lemma obs_file_not_position_file folder prefix e e' :
  obs_file_of folder prefix e ≠ position_file_of folder e'.
Proof.
  unfold obs_file_of, position_file_of. intros Heq%app_inv_head. injection Heq as Heq.
  assert (Hobs : (lower prefix +:+ String "_" (check_and_fix_str (well_name e))) +:+ ".obs"
                 = check_and_fix_str (well_name e') +:+ ".txt").
  { rewrite <- Heq. by rewrite append_assoc. }
  by apply append_ending_inj in Hobs.
Qed.

Lemma foldM_rft_step_files folder prefix out elements acc w acc' w' l e :
  foldM (rft_step folder prefix out) elements acc w = inr (acc', w', l) →
  let same := filter (same_file_name e) (written_wells elements) in
  fs w' !! obs_file_of folder prefix e
  = match last same with
    | Some e' => Some (File (obs_table e'))
    | None => fs w !! obs_file_of folder prefix e
    end
  ∧ fs w' !! position_file_of folder e
    = match last same with
      | Some e' => Some (File (position_table e'))
      | None => fs w !! position_file_of folder e
      end.
Proof.
  revert acc w l. induction elements as [|e0 elements IH]; intros acc w l; cbn [foldM].
  - by intros [= <- <- <-].
  - intros (acc1 & w1 & l1 & l2 & Hstep & Hrest & ->)%bind_inr.
    apply IH in Hrest as [Hobs Hpos]. cbv zeta in *.
    rewrite written_wells_cons.
    unfold rft_step in Hstep.
    apply bind_inr in Hstep as (r & w0 & l3 & l4 & Hwrite & Hret & _).
    assert (w1 = w0) as -> by (destruct r; by injection Hret).
    apply write_well_rft_files_inr in Hwrite
      as (_ & _ & [(He0 & _ & ->)|(He0 & _ & _ & Hfs)]).
    + by rewrite decide_True.
    + rewrite decide_False by done. rewrite filter_cons.
      destruct (decide (same_file_name e e0)) as [Hsame|Hdiff].
      * rewrite last_cons_alt.
        destruct (last (filter _ (written_wells elements))) as [e'|]; [done|].
        rewrite Hobs, Hpos, Hfs.
        rewrite (proj2 (obs_file_of_inj folder prefix e e0) Hsame).
        rewrite (proj2 (position_file_of_inj folder e e0) Hsame).
        split.
        -- rewrite lookup_insert_ne by apply not_eq_sym, obs_file_not_position_file.
           apply lookup_insert_eq.
        -- apply lookup_insert_eq.
      * destruct (last (filter _ (written_wells elements))) as [e'|]; [done|].
        rewrite Hobs, Hpos, Hfs. split.
        -- rewrite lookup_insert_ne by apply not_eq_sym, obs_file_not_position_file.
           rewrite lookup_insert_ne; [done|]. by intros Heq%obs_file_of_inj.
        -- rewrite lookup_insert_ne by (by intros Heq%position_file_of_inj).
           by rewrite lookup_insert_ne by apply obs_file_not_position_file.
Qed.

(** X12: wells whose names give the same file name share their two
    files: after [write_rft_ertobs] the observation file and the position
    file of such a well hold the active rows of the last of these wells in
    the table that has any, so the rows of the earlier ones are lost. *)
Theorem write_rft_ertobs_same_name_overwrites (rft_dict : Obs) (well_date_file parent : path)
    (w : World) out w' l (elements : list RftElement) (e e' : RftElement) :
  let rft_folder := parent ++ ["rft"] in
  let prefix := subtype_name (config rft_dict) in
  write_rft_ertobs rft_dict well_date_file parent w = inr (out, w', l) →
  as_rft (data rft_dict) = inr elements →
  last (filter (same_file_name e) (written_wells elements)) = Some e' →
  well_date_file ≠ obs_file_of rft_folder prefix e →
  well_date_file ≠ position_file_of rft_folder e →
  fs w' !! obs_file_of rft_folder prefix e = Some (File (obs_table e'))
  ∧ fs w' !! position_file_of rft_folder e = Some (File (position_table e')).
Proof.
  intros rft_folder prefix Hrun Hdata Hlast Hne1 Hne2.
  unfold write_rft_ertobs in Hrun.
  apply bind_inr in Hrun as (u & w1 & l1 & l2 & _ & Hrun & _).
  apply bind_inr in Hrun as (els & w2 & l3 & l4 & Hlift & Hrun & _).
  unfold lift in Hlift. rewrite Hdata in Hlift. injection Hlift as <- <- _.
  apply bind_inr in Hrun as (acc & w3 & l5 & l6 & Hloop & Hrun & _).
  apply bind_inr in Hrun as (u' & w4 & l7 & l8 & Hwrite & Hret & _).
  injection Hret as _ <- _.
  apply write_text_inr in Hwrite as (-> & _ & _ & _). cbn [fs].
  destruct (foldM_rft_step_files _ _ _ _ _ _ _ _ _ e Hloop) as [Hobs Hpos].
  cbv zeta in Hobs, Hpos. rewrite Hlast in Hobs, Hpos.
  by rewrite !lookup_insert_ne.
Qed.
End same_name.

(** ** Further worked examples *)

Section further_examples.
#[local] Existing Instance ex_pandas.
#[local] Existing Instance ex_utilities.
#[local] Existing Instance ex_host.
#[local] Existing Instance ex_readings.

Lemma write_dict_to_ertobs_empty_summary_witness :
  type (config ex_empty_summary_obs) = SUMMARY
  ∧ as_summary (data ex_empty_summary_obs) = inr []
  ∧ write_dict_to_ertobs ([ex_rft_obs] ++ ex_empty_summary_obs :: [ex_other_obs])
      ["out"] ex_world
    = inl ValueError.
Proof.
  assert (Ht : type (config ex_empty_summary_obs) = SUMMARY) by reflexivity.
  assert (Hd : as_summary (data ex_empty_summary_obs) = inr []) by reflexivity.
  split; [exact Ht|]. split; [exact Hd|].
  destruct (write_dict_to_ertobs [ex_rft_obs] ["out"] ex_world) as [e|r] eqn:Hrun.
  { exfalso. vm_compute in Hrun. discriminate Hrun. }
  exact (proj2 (write_dict_to_ertobs_empty_summary ex_empty_summary_obs
                  [ex_rft_obs] [ex_other_obs] ["out"] ex_world Ht Hd) r Hrun).
Defined.

Lemma write_dict_to_ertobs_files_witness :
  ∃ s w1 log,
    write_dict_to_ertobs [ex_rft_obs; ex_other_obs; ex_summary_obs] ["out"] ex_world
    = inr (s, w1, log)
    ∧ fs w1 !! ["out"] = Some Dir
    ∧ fs w1 !! ["out"; "ert_observations.obs"] = Some (File s)
    ∧ fs w1 !! ["out"; "readme.txt"] = Some (File (stamp_of "d" 0))
    ∧ ∃ rest, s = stamp_of "f" 0 +:+ rest.
Proof.
  destruct (write_dict_to_ertobs [ex_rft_obs; ex_other_obs; ex_summary_obs] ["out"] ex_world)
    as [e|[[s w1] log]] eqn:Hrun.
  { exfalso. vm_compute in Hrun. discriminate Hrun. }
  exists s, w1, log. split; [reflexivity|].
  exact (write_dict_to_ertobs_files _ ["out"] ex_world s w1 log Hrun).
Defined.

Lemma write_dict_to_ertobs_gen_data_file_witness :
  fs_wf (fs ex_world)
  ∧ ∃ s w1 log,
      write_dict_to_ertobs [ex_rft_obs; ex_other_obs; ex_summary_obs] ["out"] ex_world
      = inr (s, w1, log)
      ∧ ∃ o, head (filter is_rft [ex_rft_obs; ex_other_obs; ex_summary_obs]) = Some o
          ∧ fs w1 !! ["out"; "gen_data_rft_wells.ert"]
            = Some (File (stamp_of "f" 2
                          +:+ genrft_block ["out"] (zonemap (config o))
                          +:+ GENDATA_EXPLAINER
                          +:+ concat_strings
                                (map gen_lines
                                   (filter is_rft [ex_rft_obs; ex_other_obs; ex_summary_obs])))).
Proof.
  assert (Hwf : fs_wf (fs ex_world)).
  { unfold fs_wf. apply (bool_decide_unpack _). vm_compute. exact I. }
  split; [exact Hwf|].
  destruct (write_dict_to_ertobs [ex_rft_obs; ex_other_obs; ex_summary_obs] ["out"] ex_world)
    as [e|[[s w1] log]] eqn:Hrun.
  { exfalso. vm_compute in Hrun. discriminate Hrun. }
  exists s, w1, log. split; [reflexivity|].
  exact (write_dict_to_ertobs_gen_data_file _ ["out"] ex_world s w1 log Hwf Hrun).
Defined.

Lemma write_dict_to_ertobs_sleeps_once_witness :
  ∃ s w1 log,
    write_dict_to_ertobs [ex_rft_obs; ex_twice_rft_obs; ex_summary_obs] ["out"] ex_world
    = inr (s, w1, log)
    ∧ clock w1 = 2.
Proof.
  destruct (write_dict_to_ertobs [ex_rft_obs; ex_twice_rft_obs; ex_summary_obs] ["out"]
              ex_world) as [e|[[s w1] log]] eqn:Hrun.
  { exfalso. vm_compute in Hrun. discriminate Hrun. }
  exists s, w1, log. split; [reflexivity|].
  exact (write_dict_to_ertobs_sleeps_once _ ["out"] ex_world s w1 log Hrun).
Defined.

Lemma write_dict_to_ertobs_well_date_file_witness :
  ∃ s w1 log,
    write_dict_to_ertobs [ex_rft_obs; ex_summary_obs; ex_twice_rft_obs] ["out"] ex_world
    = inr (s, w1, log)
    ∧ fs w1 !! ["out"; "rft"; "well_date_restart.txt"]
      = Some (File (to_csv (map well_date_row (rft_wells ex_twice_rft_obs)))).
Proof.
  destruct (write_dict_to_ertobs [ex_rft_obs; ex_summary_obs; ex_twice_rft_obs] ["out"]
              ex_world) as [e|[[s w1] log]] eqn:Hrun.
  { exfalso. vm_compute in Hrun. discriminate Hrun. }
  exists s, w1, log. split; [reflexivity|].
  exact (write_dict_to_ertobs_well_date_file _ ["out"] ex_world s w1 log ex_twice_rft_obs
           Hrun eq_refl).
Defined.

Lemma write_dict_to_ertobs_without_rft_witness :
  ∃ s w1 log,
    write_dict_to_ertobs [ex_summary_obs; ex_other_obs] ["out"] ex_world = inr (s, w1, log)
    ∧ clock w1 = 0
    ∧ fs w1 = <[["out"; "ert_observations.obs"] := File s]>
                (<[["out"; "readme.txt"] := File (stamp_of "d" 0)]>
                   (fresh_dir ["out"] (fs ex_world))).
Proof.
  destruct (write_dict_to_ertobs [ex_summary_obs; ex_other_obs] ["out"] ex_world)
    as [e|[[s w1] log]] eqn:Hrun.
  { exfalso. vm_compute in Hrun. discriminate Hrun. }
  exists s, w1, log. split; [reflexivity|].
  exact (write_dict_to_ertobs_without_rft _ ["out"] ex_world s w1 log Hrun eq_refl).
Defined.

Lemma write_dict_to_ertobs_returns_iff_witness :
  fs_wf (fs ex_world)
  ∧ ((∃ s w1 log,
        write_dict_to_ertobs [ex_rft_obs; ex_empty_summary_obs] ["out"] ex_world
        = inr (s, w1, log))
     ↔ ["out"] ≠ []
       ∧ node_at (fs ex_world) (dirname ["out"]) = Some Dir
       ∧ (∀ c, node_at (fs ex_world) ["out"] ≠ Some (File c))
       ∧ Forall writable_entry [ex_rft_obs; ex_empty_summary_obs]).
Proof.
  assert (Hwf : fs_wf (fs ex_world)).
  { unfold fs_wf. apply (bool_decide_unpack _). vm_compute. exact I. }
  split; [exact Hwf|].
  exact (write_dict_to_ertobs_returns_iff [ex_rft_obs; ex_empty_summary_obs] ["out"]
           ex_world Hwf).
Defined.

Lemma write_rft_ertobs_same_name_overwrites_witness :
  ∃ out w' l,
    write_rft_ertobs ex_twice_rft_obs ["out"; "rft"; "well_date_restart.txt"] ["out"] ex_world
    = inr (out, w', l)
    ∧ fs w' !! ["out"; "rft"; "pressure_A1.obs"] = Some (File ("260 3" +:+ NL))
    ∧ fs w' !! ["out"; "rft"; "A1.txt"] = Some (File ("10 20 30 40 Valysar" +:+ NL)).
Proof.
  destruct (write_rft_ertobs ex_twice_rft_obs ["out"; "rft"; "well_date_restart.txt"]
              ["out"] ex_world) as [e|[[out w'] l]] eqn:Hrun.
  { exfalso. vm_compute in Hrun. discriminate Hrun. }
  exists out, w', l. split; [reflexivity|].
  refine (write_rft_ertobs_same_name_overwrites ex_twice_rft_obs
            ["out"; "rft"; "well_date_restart.txt"] ["out"] ex_world out w' l
            [ex_well "A1" 1 [250]%Z; ex_well "A1" 2 [260]%Z]
            (ex_well "A1" 1 [250]%Z) (ex_well "A1" 2 [260]%Z)
            Hrun eq_refl _ _ _).
  - vm_compute. reflexivity.
  - vm_compute. discriminate.
  - vm_compute. discriminate.
Defined.

Lemma write_dict_to_ertobs_returns_blocks_witness :
  ∃ s w1 log,
    write_dict_to_ertobs [ex_rft_obs; ex_other_obs; ex_summary_obs] ["out"] ex_world
    = inr (s, w1, log)
    ∧ s = stamp_of "f" 0
          +:+ concat_strings
                (map (entry_text ["out"]) [ex_rft_obs; ex_other_obs; ex_summary_obs]).
Proof.
  destruct (write_dict_to_ertobs [ex_rft_obs; ex_other_obs; ex_summary_obs] ["out"] ex_world)
    as [e|[[s w1] log]] eqn:Hrun.
  { exfalso. vm_compute in Hrun. discriminate Hrun. }
  exists s, w1, log. split; [reflexivity|].
  exact (write_dict_to_ertobs_returns_blocks _ ["out"] ex_world s w1 log Hrun).
Defined.
End further_examples.
